(** * VLTRN Mix Engineer: prompt parser, versioned session and orchestrator

    A shallow embedding of [mix_engineer.py]: the keyword-driven
    [PromptParser], the [MixSession] ledger with its version counter, the
    [AudioProcessor] methods as far as they decide what is handed to ffmpeg,
    and the [MixEngineer] entry points [process_prompt] and [undo].

    Modelling conventions.
    - Python [str] is [string]; the prompts of interest are ASCII, and
      [lower] is the ASCII case mapping of [str.lower] (bytes above 127 are
      left alone).
    - Python [int] is [Z] (the version counter, which never goes below 0 and
      is only incremented, decremented past a guard, or reset, is [nat]).
    - The float parameters of the parser are the decimal literals of the
      source, kept as exact rationals in [Q]; the parser never computes with
      them.
    - Everything outside the process (ffmpeg, the file system, the clock, the
      session file) is reached through a [Host] record over an abstract
      world type; every call threads the world explicitly. *)

From Stdlib Require Import Bool Arith ZArith QArith Qround Lia List.
From Stdlib Require Import Ascii String DecimalString DecimalNat.
Import ListNotations.

Close Scope Q_scope.

Local Open Scope string_scope.
Local Open Scope list_scope.

(* ================================================================== *)
(** ** Strings: the Python operations the parser relies on *)
(* ================================================================== *)

Module Str.

(** [c.lower()] on one ASCII character. *)
Definition lower_ascii (c : ascii) : ascii :=
  let n := nat_of_ascii c in
  if Nat.leb 65 n && Nat.leb n 90 then ascii_of_nat (n + 32) else c.

(** [s.lower()] *)
Fixpoint lower (s : string) : string :=
  match s with
  | EmptyString => EmptyString
  | String c r => String (lower_ascii c) (lower r)
  end.

(** [s.startswith(p)] *)
Fixpoint starts_with (p s : string) : bool :=
  match p, s with
  | EmptyString, _ => true
  | String _ _, EmptyString => false
  | String a p', String b s' => Ascii.eqb a b && starts_with p' s'
  end.

(** [kw in s]: substring test. *)
Fixpoint contains (kw s : string) : bool :=
  starts_with kw s ||
  match s with
  | EmptyString => false
  | String _ r => contains kw r
  end.

(** [any(kw in s for kw in kws)] *)
Definition any_in (kws : list string) (s : string) : bool :=
  existsb (fun kw => contains kw s) kws.

(** [sep.join(parts)] *)
Fixpoint join (sep : string) (parts : list string) : string :=
  match parts with
  | [] => ""
  | [p] => p
  | p :: rest => (p ++ sep ++ join sep rest)%string
  end.

Definition is_digit (c : ascii) : bool :=
  let n := nat_of_ascii c in Nat.leb 48 n && Nat.leb n 57.

(** Whitespace as [\s] sees it on ASCII text: tab, newline, vertical tab,
    form feed, carriage return, the four separators 28..31 and space. *)
Definition is_space (c : ascii) : bool :=
  let n := nat_of_ascii c in
  (Nat.leb 9 n && Nat.leb n 13) || (Nat.leb 28 n && Nat.leb n 32).

(** Longest prefix of [s] whose characters satisfy [p], and the rest. *)
Fixpoint span (p : ascii -> bool) (s : string) : string * string :=
  match s with
  | EmptyString => (EmptyString, EmptyString)
  | String c r =>
      if p c then let '(a, b) := span p r in (String c a, b)
      else (EmptyString, s)
  end.

(** Value of a run of decimal digits, most significant first. *)
Fixpoint digits_value_acc (s : string) (acc : Z) : Z :=
  match s with
  | EmptyString => acc
  | String c r =>
      digits_value_acc r (10 * acc + (Z.of_nat (nat_of_ascii c) - 48))%Z
  end.

Definition digits_value (s : string) : Z := digits_value_acc s 0%Z.

(** [str(n)] for a natural number. *)
Definition of_nat (n : nat) : string :=
  NilEmpty.string_of_uint (Nat.to_uint n).

(** [str(z)] for an integer. *)
Definition of_Z (z : Z) : string :=
  NilEmpty.string_of_int (Z.to_int z).

(** ["0" * k] *)
Fixpoint zeros (k : nat) : string :=
  match k with
  | O => ""
  | S k' => String "0" (zeros k')
  end.

(** [f"{n:03d}"]: decimal, padded on the left with zeros to width 3. *)
Definition fmt_03d (n : nat) : string :=
  let d := of_nat n in (zeros (3 - String.length d)%nat ++ d)%string.

(** Whether [s] consists of decimal digits only. *)
Fixpoint all_digits (s : string) : bool :=
  match s with
  | EmptyString => true
  | String c r => is_digit c && all_digits r
  end.

(** Reads a run of decimal digits back as a number. *)
Definition read_nat (s : string) : option nat :=
  option_map Nat.of_uint (NilEmpty.uint_of_string s).

End Str.

(* ================================================================== *)
(** ** PromptParser *)
(* ================================================================== *)

(** An entry of [result['operations']]: the ['type'] tag together with the
    ['params'] dictionary of that type. *)
Inductive Operation : Type :=
| OpEq (bass mid treble : Z)
| OpCompression (threshold ratio attack release : Z)
| OpReverb (room_size damping wet : Q)
| OpVolume (db : Z)
| OpStereoWidth (width : Q)
| OpMaster.

(** [op['type']] *)
Definition op_type (op : Operation) : string :=
  match op with
  | OpEq _ _ _ => "eq"
  | OpCompression _ _ _ _ => "compression"
  | OpReverb _ _ _ => "reverb"
  | OpVolume _ => "volume"
  | OpStereoWidth _ => "stereo_width"
  | OpMaster => "master"
  end.

(** The dictionary returned by [PromptParser.parse]. *)
Record ParseResult : Type := mkParseResult {
  original : string;
  operations : list Operation;
  requires_suno : bool;
  requires_audio_processing : bool;
  style_prompt : option string
}.

Module PromptParser.
Import Str.

Definition EQ_KEYWORDS : list string :=
  ["eq"; "equalizer"; "bass"; "treble"; "mid"; "mids"; "highs"; "lows";
   "frequency"; "frequencies"; "bright"; "dark"; "warm"; "muddy"; "crisp"].

Definition COMPRESSION_KEYWORDS : list string :=
  ["compress"; "compression"; "compressor"; "dynamics";
   "punch"; "punchy"; "squash"; "glue"; "thick"].

Definition REVERB_KEYWORDS : list string :=
  ["reverb"; "room"; "hall"; "space"; "ambient"; "wet"; "dry";
   "atmosphere"; "depth"].

Definition VOLUME_KEYWORDS : list string :=
  ["volume"; "level"; "loud"; "quiet"; "gain"; "boost"; "cut";
   "turn up"; "turn down"; "louder"; "softer"].

Definition MASTER_KEYWORDS : list string :=
  ["master"; "mastering"; "finalize"; "polish"; "streaming";
   "spotify"; "release"; "final"].

Definition STYLE_KEYWORDS : list string :=
  ["style"; "genre"; "vibe"; "feel"; "mood"; "sound like";
   "similar to"; "remake"; "reimagine"; "version"].

Definition WIDTH_KEYWORDS : list string :=
  ["stereo"; "width"; "wide"; "narrow"; "mono"; "spread"].

(** [_parse_eq]: three independent [if]/[elif] ladders over one
    dictionary; a later ladder may overwrite ['treble']. *)
Definition _parse_eq (prompt : string) : Operation :=
  let has kw := contains kw prompt in
  let '(bass, treble) :=
    if has "more bass" || has "boost bass" || has "add bass" then (4, 0)%Z
    else if has "less bass" || has "cut bass" || has "reduce bass"
         then (-4, 0)%Z
    else if has "warm" then (2, -1)%Z
    else (0, 0)%Z in
  let treble :=
    if has "more treble" || has "brighter" || has "crisp" || has "bright"
    then 3%Z
    else if has "less treble" || has "dark" || has "darker" then (-3)%Z
    else treble in
  let '(mid, treble) :=
    if has "more mids" || has "boost mids" then (3, treble)%Z
    else if has "less mids" || has "scoop" || has "scooped"
         then (-4, treble)%Z
    else if has "muddy" || has "clear" then (-2, 2)%Z
    else (0%Z, treble) in
  OpEq bass mid treble.

(** [_parse_compression] *)
Definition _parse_compression (prompt : string) : Operation :=
  let has kw := contains kw prompt in
  if has "heavy" || has "squash" then OpCompression (-25) 8 5 50
  else if has "light" || has "gentle" then OpCompression (-15) 2 5 50
  else if has "punch" || has "punchy" then OpCompression (-20) 4 20 50
  else if has "glue" then OpCompression (-10) 2 5 50
  else OpCompression (-20) 4 5 50.

(** [_parse_reverb] *)
Definition _parse_reverb (prompt : string) : Operation :=
  let has kw := contains kw prompt in
  let '(room_size, damping, wet) :=
    if has "hall" || has "large" || has "big" then (0.9, 0.5, 0.4)%Q
    else if has "room" || has "small" then (0.3, 0.5, 0.2)%Q
    else if has "plate" then (0.6, 0.3, 0.3)%Q
    else (0.5, 0.5, 0.3)%Q in
  let wet :=
    if has "wet" || has "lots of" || has "more reverb" then 0.5%Q
    else if has "dry" || has "subtle" || has "less reverb" then 0.15%Q
    else wet in
  OpReverb room_size damping wet.

(** One attempt of the pattern [([+-]?\d+)\s*db] at the start of [s];
    the value of group 1 as [int] reads it.  The greedy quantifiers never
    need to give anything back: after the longest digit run comes a
    non-digit, after the longest blank run a non-blank, and a position
    that starts with a sign cannot start with a digit. *)
Definition db_match_here (s : string) : option Z :=
  let '(negative, s1) :=
    match s with
    | String "+" r => (false, r)
    | String "-" r => (true, r)
    | _ => (false, s)
    end in
  let '(ds, s2) := span is_digit s1 in
  match ds with
  | EmptyString => None
  | _ =>
      let '(_, s3) := span is_space s2 in
      if starts_with "db" s3
      then Some (if negative then (- digits_value ds)%Z else digits_value ds)
      else None
  end.

(** [re.search(r'([+-]?\d+)\s*db', s)]: the leftmost position at which
    the pattern matches, as [int(m.group(1))]. *)
Fixpoint db_search (s : string) : option Z :=
  match db_match_here s with
  | Some z => Some z
  | None =>
      match s with
      | EmptyString => None
      | String _ r => db_search r
      end
  end.

(** The qualitative [if]/[elif] ladder of [_parse_volume]. *)
Definition volume_qualitative (prompt : string) : Z :=
  let has kw := contains kw prompt in
  if has "louder" || has "turn up" || has "boost" then 3%Z
  else if has "quieter" || has "turn down" || has "reduce" then (-3)%Z
  else if has "much louder" then 6%Z
  else if has "much quieter" then (-6)%Z
  else 0%Z.

(** [_parse_volume] *)
Definition _parse_volume (prompt : string) : Operation :=
  let db := volume_qualitative prompt in
  match db_search prompt with
  | Some v => OpVolume v
  | None => OpVolume db
  end.

(** [_parse_width] *)
Definition _parse_width (prompt : string) : Operation :=
  let has kw := contains kw prompt in
  if has "wider" || has "spread" || has "wide" then OpStereoWidth 1.5
  else if has "narrow" || has "mono" || has "centered" then OpStereoWidth 0.5
  else if has "very wide" then OpStereoWidth 2.0
  else OpStereoWidth 1.0.

(** The six family checks of [parse], in the order of the source; each
    appends at most one operation.  ([_parse_eq] returns a dictionary with
    three keys, so the inner [if eq_params:] always holds.) *)
Definition family_ops (prompt_lower : string) : list Operation :=
  (if any_in EQ_KEYWORDS prompt_lower
   then [_parse_eq prompt_lower] else []) ++
  (if any_in COMPRESSION_KEYWORDS prompt_lower
   then [_parse_compression prompt_lower] else []) ++
  (if any_in REVERB_KEYWORDS prompt_lower
   then [_parse_reverb prompt_lower] else []) ++
  (if any_in VOLUME_KEYWORDS prompt_lower
   then [_parse_volume prompt_lower] else []) ++
  (if any_in WIDTH_KEYWORDS prompt_lower
   then [_parse_width prompt_lower] else []) ++
  (if any_in MASTER_KEYWORDS prompt_lower
   then [OpMaster] else []).

(** [parse] *)
Definition parse (prompt : string) : ParseResult :=
  let prompt_lower := lower prompt in
  let ops := family_ops prompt_lower in
  let style := any_in STYLE_KEYWORDS prompt_lower in
  {| original := prompt;
     operations := ops;
     requires_suno := style;
     requires_audio_processing :=
       match ops with [] => false | _ => true end;
     style_prompt := if style then Some prompt else None |}.

(** The ['type'] tags in the order [parse] runs its family checks. *)
Definition family_order : list string :=
  ["eq"; "compression"; "reverb"; "volume"; "stereo_width"; "master"].

(** The keyword table that decides whether a family fires. *)
Definition family_keywords (ty : string) : list string :=
  if String.eqb ty "eq" then EQ_KEYWORDS
  else if String.eqb ty "compression" then COMPRESSION_KEYWORDS
  else if String.eqb ty "reverb" then REVERB_KEYWORDS
  else if String.eqb ty "volume" then VOLUME_KEYWORDS
  else if String.eqb ty "stereo_width" then WIDTH_KEYWORDS
  else if String.eqb ty "master" then MASTER_KEYWORDS
  else [].

Definition family_fires (prompt_lower ty : string) : bool :=
  any_in (family_keywords ty) prompt_lower.

(** Every keyword [parse] looks for, style keywords included. *)
Definition ALL_KEYWORDS : list string :=
  EQ_KEYWORDS ++ COMPRESSION_KEYWORDS ++ REVERB_KEYWORDS ++
  VOLUME_KEYWORDS ++ WIDTH_KEYWORDS ++ MASTER_KEYWORDS ++ STYLE_KEYWORDS.

(** Every phrase [_parse_eq] tests for. *)
Definition EQ_CUES : list string :=
  ["more bass"; "boost bass"; "add bass";
   "less bass"; "cut bass"; "reduce bass"; "warm";
   "more treble"; "brighter"; "crisp"; "bright";
   "less treble"; "dark"; "darker";
   "more mids"; "boost mids";
   "less mids"; "scoop"; "scooped"; "muddy"; "clear"].

End PromptParser.

(* ================================================================== *)
(** ** The host: ffmpeg, the file system, the clock *)
(* ================================================================== *)

(** An entry of [MixSession.history], as [add_action] builds it. *)
Record HistoryEntry : Type := mkHistoryEntry {
  h_action : string;
  h_params : Operation;
  h_result : string;
  h_version : nat;
  h_timestamp : Q
}.

(** The attributes of a [MixSession] object.  [session_dir] is
    [SESSIONS_DIR / name], kept as the string [str] gives for it. *)
Record MixSession : Type := mkMixSession {
  name : string;
  session_dir : string;
  history : list HistoryEntry;
  current_file : option string;
  version : nat
}.

(** What the program asks of its environment, over a world [W].
    - [ffmpeg_af w i f o]: [subprocess.run(['ffmpeg', '-y', '-i', i, '-af',
      f, o])], the new world and whether [returncode == 0];
    - [save_state]: the write of [session.json] in [save_session];
    - [now]: [time.time()];
    - [glob w dir pat]: [dir.glob(pat)], in the order the iterator yields;
    - [path_exists]: [os.path.exists];
    - [float_str]: how an f-string renders a float. *)
Record Host (W : Type) : Type := mkHost {
  ffmpeg_af : W -> string -> string -> string -> W * bool;
  save_state : W -> MixSession -> W;
  now : W -> Q;
  glob : W -> string -> string -> list string;
  path_exists : W -> string -> bool;
  float_str : Q -> string
}.

Arguments ffmpeg_af {W} _ _ _ _ _.
Arguments save_state {W} _ _ _.
Arguments now {W} _ _.
Arguments glob {W} _ _ _ _.
Arguments path_exists {W} _ _.
Arguments float_str {W} _ _.

(* ================================================================== *)
(** ** AudioProcessor *)
(* ================================================================== *)

Module AudioProcessor.
Import Str.

(** The [filters] list [apply_eq] collects: one band per non-zero gain. *)
Definition eq_filters (bass mid treble : Z) : list string :=
  (if (bass =? 0)%Z then []
   else [("equalizer=f=100:t=q:w=1:g=" ++ of_Z bass)%string]) ++
  (if (mid =? 0)%Z then []
   else [("equalizer=f=1000:t=q:w=1:g=" ++ of_Z mid)%string]) ++
  (if (treble =? 0)%Z then []
   else [("equalizer=f=10000:t=q:w=1:g=" ++ of_Z treble)%string]).

Section WithHost.
Context {W : Type} (host : Host W).

(** [apply_eq]: with no band to apply it returns [False] before any
    process is started. *)
Definition apply_eq (w : W) (input_file output_file : string)
           (bass mid treble : Z) : W * bool :=
  match eq_filters bass mid treble with
  | [] => (w, false)
  | filters => ffmpeg_af host w input_file (join "," filters) output_file
  end.

(** [apply_compression] *)
Definition apply_compression (w : W) (input_file output_file : string)
           (threshold ratio attack release : Z) : W * bool :=
  ffmpeg_af host w input_file
    ("acompressor=threshold=" ++ of_Z threshold ++ "dB:ratio=" ++
     of_Z ratio ++ ":attack=" ++ of_Z attack ++ ":release=" ++
     of_Z release)%string
    output_file.

(** [apply_reverb]: [delay = int(room_size * 100)],
    [decay = 1 - damping]. *)
Definition apply_reverb (w : W) (input_file output_file : string)
           (room_size damping wet : Q) : W * bool :=
  let delay := Qfloor (room_size * 100) in
  let decay := (1 - damping)%Q in
  ffmpeg_af host w input_file
    ("aecho=0.8:" ++ float_str host decay ++ ":" ++ of_Z delay ++ ":" ++
     float_str host (decay * 0.5))%string
    output_file.

(** [adjust_volume]; the parser hands it an [int]. *)
Definition adjust_volume (w : W) (input_file output_file : string)
           (db : Z) : W * bool :=
  ffmpeg_af host w input_file ("volume=" ++ of_Z db ++ "dB")%string output_file.

(** [stereo_width] *)
Definition stereo_width (w : W) (input_file output_file : string)
           (width : Q) : W * bool :=
  ffmpeg_af host w input_file
    ("stereotools=mlev=" ++ float_str host width)%string output_file.

(** [chain_effects] *)
Definition chain_effects (w : W) (input_file output_file : string)
           (filters : list string) : W * bool :=
  match filters with
  | [] => (w, false)
  | _ => ffmpeg_af host w input_file (join "," filters) output_file
  end.

End WithHost.
End AudioProcessor.

(* ================================================================== *)
(** ** MixSession *)
(* ================================================================== *)

Module Session.
Import Str.

Definition with_version (s : MixSession) (v : nat) : MixSession :=
  {| name := name s; session_dir := session_dir s; history := history s;
     current_file := current_file s; version := v |}.

Definition with_current_file (s : MixSession) (f : option string)
  : MixSession :=
  {| name := name s; session_dir := session_dir s; history := history s;
     current_file := f; version := version s |}.

Definition with_history (s : MixSession) (h : list HistoryEntry)
  : MixSession :=
  {| name := name s; session_dir := session_dir s; history := h;
     current_file := current_file s; version := version s |}.

(** The file name [f"v{version:03d}{suffix}.wav"] under the session
    directory. *)
Definition versioned_name (dir : string) (v : nat) (suffix : string)
  : string :=
  (dir ++ "/" ++ "v" ++ fmt_03d v ++ suffix ++ ".wav")%string.

(** [get_versioned_path]: bumps [self.version], then names the file
    after the new value. *)
Definition get_versioned_path (s : MixSession) (suffix : string)
  : MixSession * string :=
  let s' := with_version s (S (version s)) in
  (s', versioned_name (session_dir s') (version s') suffix).

Section WithHost.
Context {W : Type} (host : Host W).

(** [save_session] *)
Definition save_session (w : W) (s : MixSession) : W :=
  save_state host w s.

(** [add_action] *)
Definition add_action (w : W) (s : MixSession)
           (action : string) (params : Operation) (result : string)
  : W * MixSession :=
  let s' :=
    with_history s
      (history s ++
       [{| h_action := action; h_params := params; h_result := result;
           h_version := version s; h_timestamp := now host w |}]) in
  (save_session w s', s').

(** [MixSession.set_source] *)
Definition set_source (w : W) (s : MixSession) (file_path : string)
  : W * MixSession :=
  let s' := with_version (with_current_file s (Some file_path)) 0 in
  (save_session w s', s').

End WithHost.
End Session.

(* ================================================================== *)
(** ** MixEngineer *)
(* ================================================================== *)

(** One entry of the [results] list of [process_prompt], before it is
    rendered into the reply text. *)
Inductive ResultLine : Type :=
| LineEq (bass mid treble : Z)
| LineCompression (ratio threshold : Z)
| LineReverb (room_size wet : Q)
| LineVolume (db : Z)
| LineStereoWidth (width : Q)
| LineMaster
| LineFailed (op_type : string)
| LineStyleRequested
| LineStylePrompt (prompt : string)
| LineStyleHint.

(** The replies of [process_prompt]: the two refusals, the list of example
    phrasings of [_suggest_operations], and the report of a batch (number
    of parsed operations, result lines, [session.version],
    [session.current_file]). *)
Inductive Reply : Type :=
| NoSessionActive
| NoSourceFileSet
| Suggestions
| Applied (n_ops : nat) (results : list ResultLine)
          (version : nat) (output : option string).

(** The replies of [undo]. *)
Inductive UndoReply : Type :=
| NothingToUndo
| Reverted (prev_version : nat)
| CouldNotFindPrevious.

Module MixEngineer.
Import Str Session.

(** The [filters] list of the mastering branch. *)
Definition master_filters : list string :=
  ["highpass=f=30";
   "acompressor=threshold=-18dB:ratio=3:attack=10:release=100";
   "equalizer=f=100:t=q:w=1:g=1,equalizer=f=10000:t=q:w=1:g=1.5";
   "alimiter=limit=-1dB:level=false";
   "loudnorm=I=-14:TP=-1.5:LRA=11"].

(** The example phrasings [_suggest_operations] offers, by heading. *)
Definition SUGGESTED_EXAMPLES : list (string * list string) :=
  [("EQ / Tone",
    ["make it brighter"; "add more bass"; "cut the mids, it's muddy";
     "make it warmer"]);
   ("Compression / Dynamics",
    ["add some punch"; "make it glue together"; "heavy compression"]);
   ("Reverb / Space",
    ["add hall reverb"; "make it sound bigger"; "add subtle room ambience"]);
   ("Volume / Levels", ["make it louder"; "turn it down 3dB"]);
   ("Stereo / Width", ["make it wider"; "narrow the stereo image"]);
   ("Mastering", ["master for streaming"; "finalize the mix"])].

(** How many times the iteration for [op] calls [get_versioned_path]. *)
Definition slots_taken (op : Operation) : nat :=
  match op with
  | OpMaster => 2
  | _ => 1
  end.

(** The line each branch appends to [results] before the outcome of the
    call is looked at. *)
Definition describe (op : Operation) : ResultLine :=
  match op with
  | OpEq b m t => LineEq b m t
  | OpCompression th r _ _ => LineCompression r th
  | OpReverb rs _ wet => LineReverb rs wet
  | OpVolume db => LineVolume db
  | OpStereoWidth wd => LineStereoWidth wd
  | OpMaster => LineMaster
  end.

(** The state the loop of [process_prompt] carries from one operation to
    the next: the world, [self.session], the local [current_file] and the
    [results] list. *)
Record Loop (W : Type) : Type := mkLoop {
  l_world : W;
  l_session : MixSession;
  l_current : string;
  l_results : list ResultLine
}.
Arguments mkLoop {W} _ _ _ _.
Arguments l_world {W} _.
Arguments l_session {W} _.
Arguments l_current {W} _.
Arguments l_results {W} _.

Section WithHost.
Context {W : Type} (host : Host W).

(** The [if op_type == ...] dispatch to the [AudioProcessor]. *)
Definition run_engine (w : W) (current_file output_file : string)
           (op : Operation) : W * bool :=
  match op with
  | OpEq b m t =>
      AudioProcessor.apply_eq host w current_file output_file b m t
  | OpCompression th r a rl =>
      AudioProcessor.apply_compression host w current_file output_file
        th r a rl
  | OpReverb rs d wet =>
      AudioProcessor.apply_reverb host w current_file output_file rs d wet
  | OpVolume db =>
      AudioProcessor.adjust_volume host w current_file output_file db
  | OpStereoWidth wd =>
      AudioProcessor.stereo_width host w current_file output_file wd
  | OpMaster =>
      AudioProcessor.chain_effects host w current_file output_file
        master_filters
  end.

(** The version slots one iteration takes: the output file, and for
    the mastering branch a second one for [temp_file], which is bound
    and then not used. *)
Definition reserve (s : MixSession) (op : Operation)
  : MixSession * string :=
  let '(s1, output_file) :=
    get_versioned_path s ("_" ++ op_type op)%string in
  match op with
  | OpMaster =>
      let '(s2, _) := get_versioned_path s1 "_master_temp" in
      (s2, output_file)
  | _ => (s1, output_file)
  end.

(** The body of [for op in parsed['operations']]. *)
Definition process_op (st : Loop W) (op : Operation) : Loop W :=
  let '(s1, output_file) := reserve (l_session st) op in
  let '(w1, success) :=
    run_engine (l_world st) (l_current st) output_file op in
  let results := l_results st ++ [describe op] in
  if success then
    let s2 := with_current_file s1 (Some output_file) in
    let '(w2, s3) := add_action host w1 s2 (op_type op) op "success" in
    mkLoop w2 s3 output_file results
  else
    mkLoop w1 s1 (l_current st) (results ++ [LineFailed (op_type op)]).

Definition process_ops (st : Loop W) (ops : list Operation) : Loop W :=
  fold_left process_op ops st.

(** The three early returns of [process_prompt]: no session, no
    source file (an empty path counts as none), nothing recognised.
    Past them the loop starts from [self.session.current_file]. *)
Definition entry_checks (session : option MixSession) (prompt : string)
  : Reply + (MixSession * string * ParseResult) :=
  match session with
  | None => inl NoSessionActive
  | Some s =>
      match current_file s with
      | None | Some EmptyString => inl NoSourceFileSet
      | Some current =>
          let parsed := PromptParser.parse prompt in
          match operations parsed, requires_suno parsed with
          | [], false => inl Suggestions
          | _, _ => inr (s, current, parsed)
          end
      end
  end.

(** [process_prompt] *)
Definition process_prompt (w : W) (session : option MixSession)
           (prompt : string) : W * option MixSession * Reply :=
  match entry_checks session prompt with
  | inl reply => (w, session, reply)
  | inr (s, current, parsed) =>
      let ops := operations parsed in
      let st := process_ops (mkLoop w s current []) ops in
      let results :=
        l_results st ++
        (if requires_suno parsed
         then [LineStyleRequested;
               LineStylePrompt
                 (match style_prompt parsed with
                  | Some p => p
                  | None => prompt
                  end);
               LineStyleHint]
         else []) in
      let w' := save_session host (l_world st) (l_session st) in
      (w', Some (l_session st),
       Applied (List.length ops) results
               (version (l_session st))
               (current_file (l_session st)))
  end.

(** [undo] *)
Definition undo (w : W) (session : option MixSession)
  : W * option MixSession * UndoReply :=
  match session with
  | None => (w, session, NothingToUndo)
  | Some s =>
      if Nat.ltb (version s) 2 then (w, session, NothingToUndo)
      else
        let prev_version := (version s - 1)%nat in
        let prev_file :=
          hd_error
            (glob host w (session_dir s)
               ("v" ++ fmt_03d prev_version ++ "*.wav")%string) in
        match prev_file with
        | Some f =>
            if negb (String.eqb f "") && path_exists host w f then
              let s' :=
                with_version (with_current_file s (Some f)) prev_version in
              (save_session host w s', Some s', Reverted prev_version)
            else (w, session, CouldNotFindPrevious)
        | None => (w, session, CouldNotFindPrevious)
        end
  end.

(** [MixEngineer.set_source] on an engineer whose session is [s]; the
    ffprobe report it prints afterwards leaves the session alone. *)
Definition set_source (w : W) (s : MixSession) (file_path : string)
  : W * MixSession * bool :=
  if path_exists host w file_path then
    let '(w', s') := Session.set_source host w s file_path in
    (w', s', true)
  else (w, s, false).

(** *** Observations on a batch, for the statements below *)

(** The output file the iteration for [op] asks the engine to write. *)
Definition op_output (st : Loop W) (op : Operation) : string :=
  snd (reserve (l_session st) op).

(** Whether the engine call of the iteration for [op] succeeds. *)
Definition op_success (st : Loop W) (op : Operation) : bool :=
  snd (run_engine (l_world st) (l_current st) (op_output st op) op).

(** The paths [get_versioned_path] returns during one iteration. *)
Definition op_slots (st : Loop W) (op : Operation) : list string :=
  let '(s1, output_file) :=
    get_versioned_path (l_session st) ("_" ++ op_type op)%string in
  match op with
  | OpMaster => [output_file; snd (get_versioned_path s1 "_master_temp")]
  | _ => [output_file]
  end.


(** The history record a successful iteration appends. *)
Definition success_record (st : Loop W) (op : Operation) : HistoryEntry :=
  {| h_action := op_type op; h_params := op; h_result := "success";
     h_version := version (l_session st) + slots_taken op;
     h_timestamp :=
       now host (fst (run_engine (l_world st) (l_current st)
                        (op_output st op) op)) |}.

(** One engine call of a batch: the operation, the file it reads, the
    file it is asked to write, and whether it succeeded. *)
Record Call : Type := mkCall {
  c_op : Operation;
  c_input : string;
  c_output : string;
  c_ok : bool
}.

(** The engine calls of the loop started in [st] over [ops]. *)
Fixpoint batch_calls (st : Loop W) (ops : list Operation) : list Call :=
  match ops with
  | [] => []
  | op :: rest =>
      mkCall op (l_current st) (op_output st op) (op_success st op)
      :: batch_calls (process_op st op) rest
  end.

(** The paths [get_versioned_path] returns during the loop. *)
Fixpoint batch_slots (st : Loop W) (ops : list Operation) : list string :=
  match ops with
  | [] => []
  | op :: rest => op_slots st op ++ batch_slots (process_op st op) rest
  end.

(** The same two observations for a whole [process_prompt] call. *)
Definition prompt_calls (w : W) (session : option MixSession)
           (prompt : string) : list Call :=
  match entry_checks session prompt with
  | inl _ => []
  | inr (s, current, parsed) =>
      batch_calls (mkLoop w s current []) (operations parsed)
  end.

Definition prompt_slots (w : W) (session : option MixSession)
           (prompt : string) : list string :=
  match entry_checks session prompt with
  | inl _ => []
  | inr (s, current, parsed) =>
      batch_slots (mkLoop w s current []) (operations parsed)
  end.

(** Successful calls among [calls]. *)
Definition count_ok (calls : list Call) : nat :=
  List.length (filter c_ok calls).

(** The file the next call reads when the calls before it were [calls]
    and the loop started on [cur]: the output of the latest call that
    succeeded, [cur] if none did. *)
Fixpoint last_ok (cur : string) (calls : list Call) : string :=
  match calls with
  | [] => cur
  | c :: rest => last_ok (if c_ok c then c_output c else cur) rest
  end.

(** Every call reads the output of the latest successful call before it
    (the starting file [cur] if there is none). *)
Fixpoint chained (cur : string) (calls : list Call) : Prop :=
  match calls with
  | [] => True
  | c :: rest =>
      c_input c = cur /\ chained (if c_ok c then c_output c else cur) rest
  end.

(** The records of [after] that were appended to [before]. *)
Definition appended (before after : MixSession) : list HistoryEntry :=
  skipn (List.length (history before)) (history after).

(** [p] is a path [get_versioned_path] can return in directory [dir] for
    a version above [lo] and up to [hi]; the suffixes [process_prompt]
    passes all start with an underscore. *)
Definition slot_in (dir : string) (lo hi : nat) (p : string) : Prop :=
  exists v rest,
    lo < v <= hi /\ p = Session.versioned_name dir v (String "_" rest).

(** A run of the interactive loop: mixing prompts and [undo]. *)
Inductive Command : Type :=
| Mix (prompt : string)
| Undo.

Definition is_mix (c : Command) : bool :=
  match c with Mix _ => true | Undo => false end.

(** All paths [get_versioned_path] returns while the commands run, in
    the order they are returned. *)
Fixpoint run_slots (w : W) (session : option MixSession)
         (cmds : list Command) : list string :=
  match cmds with
  | [] => []
  | Mix prompt :: rest =>
      let '(w', session', _) := process_prompt w session prompt in
      prompt_slots w session prompt ++ run_slots w' session' rest
  | Undo :: rest =>
      let '(w', session', _) := undo w session in
      run_slots w' session' rest
  end.

End WithHost.
End MixEngineer.

(* ================================================================== *)
(** ** A simulated host, to run the model on concrete inputs *)
(* ================================================================== *)

Module SimHost.
Import Str.

(** The world is the list of files that exist, newest first. *)
Definition World : Type := list string.

(** Shell-style matching with [*] as the only wildcard. *)
Fixpoint glob_match (pat name : string) : bool :=
  match pat with
  | EmptyString =>
      match name with EmptyString => true | _ => false end
  | String c pat' =>
      if Ascii.eqb c "*" then
        (fix skip (n : string) : bool :=
           glob_match pat' n ||
           match n with
           | EmptyString => false
           | String _ n' => skip n'
           end) name
      else
        match name with
        | EmptyString => false
        | String d name' => Ascii.eqb c d && glob_match pat' name'
        end
  end.

(** A stand-in for float rendering: numerator, a slash, denominator. *)
Definition sim_float_str (q : Q) : string :=
  (of_Z (Qnum q) ++ "/" ++ of_nat (Pos.to_nat (Qden q)))%string.

(** ffmpeg writes its output file and succeeds, unless [broken] holds of
    the filter string, in which case it fails and writes nothing. *)
Definition sim (broken : string -> bool) : Host World :=
  {| ffmpeg_af := fun w _ f o =>
       if broken f then (w, false) else (o :: w, true);
     save_state := fun w _ => w;
     now := fun _ => 0%Q;
     glob := fun w dir pat =>
       filter (glob_match (dir ++ "/" ++ pat)%string) w;
     path_exists := fun w f => existsb (String.eqb f) w;
     float_str := sim_float_str |}.

(** A host on which every ffmpeg call succeeds. *)
Definition healthy : Host World := sim (fun _ => false).

(** A host on which the compressor filter fails. *)
Definition no_compressor : Host World := sim (starts_with "acompressor").

(** A session [demo] right after [set_source "song.wav"]. *)
Definition fresh : MixSession :=
  {| name := "demo"; session_dir := "sessions/demo"; history := [];
     current_file := Some "song.wav"; version := 0 |}.

End SimHost.

(* ================================================================== *)
(** ** A host that records what ffmpeg is asked to do *)
(* ================================================================== *)

Module LogHost.

(** One ffmpeg run: input file, filter string, output file. *)
Definition Entry : Type := (string * string * string)%type.

(** The world is the list of ffmpeg runs so far, latest first. *)
Definition Log : Type := list Entry.

(** Every run succeeds and is written down as it was asked for. *)
Definition recording : Host Log :=
  {| ffmpeg_af := fun w i f o => ((i, f, o) :: w, true);
     save_state := fun w _ => w;
     now := fun _ => 0%Q;
     glob := fun _ _ _ => [];
     path_exists := fun _ _ => true;
     float_str := SimHost.sim_float_str |}.

End LogHost.

(* ================================================================== *)
(** ** More string operations: slicing, stripping, suffix test *)
(* ================================================================== *)

Module StrMore.
Import Str.

(** [s[n:]] *)
Fixpoint drop (n : nat) (s : string) : string :=
  match n, s with
  | O, _ => s
  | S _, EmptyString => EmptyString
  | S n', String _ r => drop n' r
  end.

(** [s.lstrip()] *)
Fixpoint lstrip (s : string) : string :=
  match s with
  | EmptyString => EmptyString
  | String c r => if is_space c then lstrip r else s
  end.

(** [s.rstrip()] *)
Fixpoint rstrip (s : string) : string :=
  match s with
  | EmptyString => EmptyString
  | String c r =>
      match rstrip r with
      | EmptyString => if is_space c then EmptyString else String c EmptyString
      | r' => String c r'
      end
  end.

(** [s.strip()] *)
Definition strip (s : string) : string := lstrip (rstrip s).

(** [s.endswith(suf)]: [suf] is one of the suffixes of [s]. *)
Fixpoint ends_with (suf s : string) : bool :=
  String.eqb suf s ||
  match s with
  | EmptyString => false
  | String _ r => ends_with suf r
  end.

(** Whether [s] consists of whitespace only. *)
Fixpoint all_space (s : string) : bool :=
  match s with
  | EmptyString => true
  | String c r => is_space c && all_space r
  end.

(** Whether [s] is free of decimal digits. *)
Fixpoint no_digit (s : string) : bool :=
  match s with
  | EmptyString => true
  | String c r => negb (is_digit c) && no_digit r
  end.

(** Whether [s] is free of the two sign characters. *)
Fixpoint no_sign (s : string) : bool :=
  match s with
  | EmptyString => true
  | String c r =>
      negb (Ascii.eqb c "+") && negb (Ascii.eqb c "-") && no_sign r
  end.

End StrMore.

(* ================================================================== *)
(** ** interactive_mode: how a line of input is dispatched *)
(* ================================================================== *)

Module Interactive.
Import Str StrMore.

(** What the loop of [interactive_mode] does with one line. *)
Inductive Action : Type :=
| Ignore
| Quit
| Help
| StartSession (name : string)
| SetSource (path : string)
| ShowHistory
| UndoLast
| Export (name : string)
| MixPrompt (prompt : string).

(** [if not name.endswith('.mp3'): name += '.mp3'], as both
    [interactive_mode] and the export route of the web interface do it. *)
Definition export_name (name : string) : string :=
  if ends_with ".mp3" name then name else (name ++ ".mp3")%string.

(** The [if]/[elif] ladder of the loop body.  The command word is matched
    on [cmd.lower()], the argument is cut from [cmd] itself. *)
Definition dispatch (line : string) : Action :=
  let cmd := strip line in
  match cmd with
  | EmptyString => Ignore
  | _ =>
      let low := lower cmd in
      if existsb (String.eqb low) ["quit"; "exit"; "q"] then Quit
      else if String.eqb low "help" then Help
      else if starts_with "session " low then StartSession (strip (drop 8 cmd))
      else if starts_with "source " low then SetSource (strip (drop 7 cmd))
      else if String.eqb low "history" then ShowHistory
      else if String.eqb low "undo" then UndoLast
      else if starts_with "export " low
           then Export (export_name (strip (drop 7 cmd)))
      else MixPrompt cmd
  end.

End Interactive.

(* ================================================================== *)
(** ** MixEngineer.export and runs of commands *)
(* ================================================================== *)

(** The replies of [export]. *)
Inductive ExportReply : Type :=
| NoFileToExport
| ExportedTo (output : string).

(** What [export] asks of its environment.
    - [processed_path name]: [str(PROCESSED_DIR / name)];
    - [ffmpeg_mp3 w i o]: [subprocess.run(['ffmpeg', '-y', '-i', i, '-c:a',
      'libmp3lame', '-b:a', '320k', o])], the new world and whether
      [returncode == 0]. *)
Record Encoder (W : Type) : Type := mkEncoder {
  processed_path : string -> string;
  ffmpeg_mp3 : W -> string -> string -> W * bool
}.

Arguments processed_path {W} _ _.
Arguments ffmpeg_mp3 {W} _ _ _ _.

Module Exporter.

(** [export]: the outcome of the ffmpeg run is not looked at. *)
Definition export {W : Type} (enc : Encoder W) (w : W)
           (session : option MixSession) (filename : string)
  : W * ExportReply :=
  match session with
  | None => (w, NoFileToExport)
  | Some s =>
      match current_file s with
      | None | Some EmptyString => (w, NoFileToExport)
      | Some current =>
          let output := processed_path enc filename in
          let '(w', _) := ffmpeg_mp3 enc w current output in
          (w', ExportedTo output)
      end
  end.

End Exporter.

Module Run.
Import MixEngineer.

(** One command of a run: a mixing prompt, [undo], or [source <path>]. *)
Inductive Step : Type :=
| DoMix (prompt : string)
| DoUndo
| DoSource (file_path : string).

Section WithHost.
Context {W : Type} (host : Host W).

(** The effect of one command on world and session.  [source] without a
    session changes nothing: either the file is missing and [set_source]
    returns [False], or the attribute access on the missing session raises
    and the loop of [interactive_mode] catches it. *)
Definition step (w : W) (session : option MixSession) (c : Step)
  : W * option MixSession :=
  match c with
  | DoMix prompt => fst (process_prompt host w session prompt)
  | DoUndo => fst (undo host w session)
  | DoSource file_path =>
      match session with
      | None => (w, None)
      | Some s =>
          let '(w', s', _) := set_source host w s file_path in (w', Some s')
      end
  end.

(** A run of commands, first to last. *)
Fixpoint run (w : W) (session : option MixSession) (cmds : list Step)
  : W * option MixSession :=
  match cmds with
  | [] => (w, session)
  | c :: rest => let '(w', session') := step w session c in run w' session' rest
  end.

End WithHost.
End Run.

(* ================================================================== *)
(** ** Facts about the string operations *)
(* ================================================================== *)

Module StrFacts.
Import Str.

Lemma lower_ascii_idempotent (c : ascii) :
  lower_ascii (lower_ascii c) = lower_ascii c.
Proof.
  destruct c as [[] [] [] [] [] [] [] []]; reflexivity.
Qed.

Lemma lower_idempotent (s : string) : lower (lower s) = lower s.
Proof.
  induction s as [|c r IH]; simpl.
  - reflexivity.
  - now rewrite lower_ascii_idempotent, IH.
Qed.

Lemma any_in_false (kws : list string) (s : string) :
  any_in kws s = false <-> (forall kw, In kw kws -> contains kw s = false).
Proof.
  unfold any_in. split.
  - intros H kw Hin.
    destruct (contains kw s) eqn:E; [|reflexivity].
    rewrite <- H. symmetry. apply existsb_exists. now exists kw.
  - intros H. destruct (existsb _ kws) eqn:E; [|reflexivity].
    apply existsb_exists in E as (kw & Hin & Hc).
    rewrite (H kw Hin) in Hc. discriminate.
Qed.

Lemma any_in_app_false (k1 k2 : list string) (s : string) :
  any_in (k1 ++ k2) s = false -> any_in k1 s = false /\ any_in k2 s = false.
Proof.
  unfold any_in. rewrite existsb_app. apply orb_false_elim.
Qed.

End StrFacts.

(* ================================================================== *)
(** ** The parser *)
(* ================================================================== *)

Module ParserFacts.
Import Str StrFacts PromptParser.

(** [parse] reads its argument through [lower] only, apart from the two
    fields that store the prompt itself. *)
Lemma parse_via_lower (t u : string) :
  lower t = lower u ->
  operations (parse t) = operations (parse u) /\
  requires_audio_processing (parse t) = requires_audio_processing (parse u) /\
  requires_suno (parse t) = requires_suno (parse u).
Proof.
  intros H. unfold parse. simpl. now rewrite H.
Qed.

(** C9. Classification is case-insensitive: [parse t] and
    [parse (lower t)] have the same operation list (kinds, order and
    parameters) and the same two flags; the prompt as given survives only
    in [original] and, when a style keyword fired, in [style_prompt]. *)
Theorem parse_case_insensitive (t : string) :
  operations (parse t) = operations (parse (lower t)) /\
  requires_audio_processing (parse t)
    = requires_audio_processing (parse (lower t)) /\
  requires_suno (parse t) = requires_suno (parse (lower t)) /\
  original (parse t) = t /\
  style_prompt (parse t) = (if requires_suno (parse t) then Some t else None).
Proof.
  destruct (parse_via_lower t (lower t)) as (Hops & Haudio & Hsuno).
  { symmetry. apply lower_idempotent. }
  repeat split; assumption.
Qed.

(** When none of the keywords occurs, [parse] finds nothing at all. *)
Lemma parse_no_keyword (t : string) :
  any_in ALL_KEYWORDS (lower t) = false ->
  parse t = {| original := t; operations := [];
               requires_suno := false; requires_audio_processing := false;
               style_prompt := None |}.
Proof.
  unfold ALL_KEYWORDS. intros H.
  apply any_in_app_false in H as (Heq & H).
  apply any_in_app_false in H as (Hcomp & H).
  apply any_in_app_false in H as (Hrev & H).
  apply any_in_app_false in H as (Hvol & H).
  apply any_in_app_false in H as (Hwid & H).
  apply any_in_app_false in H as (Hmas & Hsty).
  unfold parse, family_ops. cbv zeta.
  now rewrite Heq, Hcomp, Hrev, Hvol, Hwid, Hmas, Hsty.
Qed.

(** With none of its cue phrases present, [_parse_eq] returns the
    dictionary it started from. *)
Lemma parse_eq_no_cue (p : string) :
  (forall cue, In cue EQ_CUES -> contains cue p = false) ->
  _parse_eq p = OpEq 0 0 0.
Proof.
  intros H. unfold _parse_eq.
  rewrite !H by (unfold EQ_CUES; simpl; tauto).
  reflexivity.
Qed.

(** The operation of the EQ family, when it fires, heads the list. *)
Lemma parse_eq_first (t : string) :
  any_in EQ_KEYWORDS (lower t) = true ->
  hd_error (operations (parse t)) = Some (_parse_eq (lower t)).
Proof.
  intros H. unfold parse, family_ops. cbv zeta.
  unfold operations. now rewrite H.
Qed.

Ltac split_ifs :=
  repeat match goal with
         | |- context [if ?c then _ else _] => destruct c
         end.

Lemma op_type_parse_eq (p : string) : op_type (_parse_eq p) = "eq".
Proof. unfold _parse_eq. split_ifs; reflexivity. Qed.

Lemma op_type_parse_compression (p : string) :
  op_type (_parse_compression p) = "compression".
Proof. unfold _parse_compression. split_ifs; reflexivity. Qed.

Lemma op_type_parse_reverb (p : string) :
  op_type (_parse_reverb p) = "reverb".
Proof. unfold _parse_reverb. split_ifs; reflexivity. Qed.

Lemma op_type_parse_volume (p : string) :
  op_type (_parse_volume p) = "volume".
Proof. unfold _parse_volume. now destruct (db_search p). Qed.

Lemma op_type_parse_width (p : string) :
  op_type (_parse_width p) = "stereo_width".
Proof. unfold _parse_width. split_ifs; reflexivity. Qed.

(** The tags of the parsed operations are the fixed family order, thinned
    to the families that fire. *)
Lemma parse_types_in_family_order (t : string) :
  map op_type (operations (parse t))
  = filter (family_fires (lower t)) family_order.
Proof.
  unfold parse, family_ops, family_order, operations.
  cbv zeta. cbn [filter]. unfold family_fires.
  change (family_keywords "eq") with EQ_KEYWORDS.
  change (family_keywords "compression") with COMPRESSION_KEYWORDS.
  change (family_keywords "reverb") with REVERB_KEYWORDS.
  change (family_keywords "volume") with VOLUME_KEYWORDS.
  change (family_keywords "stereo_width") with WIDTH_KEYWORDS.
  change (family_keywords "master") with MASTER_KEYWORDS.
  destruct (any_in EQ_KEYWORDS (lower t));
    destruct (any_in COMPRESSION_KEYWORDS (lower t));
    destruct (any_in REVERB_KEYWORDS (lower t));
    destruct (any_in VOLUME_KEYWORDS (lower t));
    destruct (any_in WIDTH_KEYWORDS (lower t));
    destruct (any_in MASTER_KEYWORDS (lower t));
    cbn [app map];
    rewrite ?op_type_parse_eq, ?op_type_parse_compression,
      ?op_type_parse_reverb, ?op_type_parse_volume, ?op_type_parse_width;
    reflexivity.
Qed.

(** C6. The operations of a [ParseResult] come in the fixed family order
    (EQ, compression, reverb, volume, stereo width, mastering) whatever
    the order of the phrases in the text: their tags are the fixed order
    thinned to the families that fire.  In particular the two orderings of
    the brighter-and-reverb prompt both give a treble boost of 3 followed by
    a reverb with its default parameters. *)
Theorem parse_family_order (t : string) :
  map op_type (operations (parse t))
  = filter (family_fires (lower t)) family_order /\
  operations (parse "make it brighter and add some reverb")
  = [OpEq 0 0 3; OpReverb 0.5 0.5 0.3] /\
  operations (parse "add some reverb and make it brighter")
  = [OpEq 0 0 3; OpReverb 0.5 0.5 0.3].
Proof.
  split; [apply parse_types_in_family_order|].
  split; vm_compute; reflexivity.
Qed.

(** A number in front of [db] replaces whatever the qualitative ladder of
    [_parse_volume] chose. *)
Lemma parse_volume_explicit (p : string) (v : Z) :
  db_search p = Some v -> _parse_volume p = OpVolume v.
Proof. intros H. unfold _parse_volume. now rewrite H. Qed.

(** C3. On "turn it down 7db" no family fires, the volume family
    included: its keywords are "turn down" and "turn up", and neither is a
    substring of "turn it down".  No Volume operation is produced, with -7
    or with any other value.  Where the family does fire, as on
    "turn down 7db", the number found in front of [db] replaces the
    qualitative -3, but it is read as written: 7, not -7. *)
Theorem parse_turn_it_down_7db :
  operations (parse "turn it down 7db") = [] /\
  requires_audio_processing (parse "turn it down 7db") = false /\
  any_in VOLUME_KEYWORDS "turn it down 7db" = false /\
  db_search "turn it down 7db" = Some 7%Z /\
  volume_qualitative "turn down 7db" = (-3)%Z /\
  operations (parse "turn down 7db") = [OpVolume 7].
Proof. repeat split; vm_compute; reflexivity. Qed.

End ParserFacts.

(* ================================================================== *)
(** ** The orchestrator: one iteration, one batch *)
(* ================================================================== *)

Module EngineFacts.
Import Str StrFacts PromptParser ParserFacts Session MixEngineer.

Section WithHost.
Context {W : Type} (host : Host W).

Lemma reserve_spec (s : MixSession) (op : Operation) :
  reserve s op
  = (with_version s (version s + slots_taken op),
     versioned_name (session_dir s) (S (version s))
       ("_" ++ op_type op)%string).
Proof.
  unfold reserve, get_versioned_path, with_version.
  destruct op; simpl; repeat f_equal; lia.
Qed.

(** The two ways an iteration ends. *)
Lemma process_op_spec (st : Loop W) (op : Operation) :
  let s1 := with_version (l_session st)
              (version (l_session st) + slots_taken op) in
  let out := op_output st op in
  let w1 := fst (run_engine host (l_world st) (l_current st) out op) in
  process_op host st op =
  if op_success host st op then
    let s3 := with_history (with_current_file s1 (Some out))
                (history (l_session st) ++ [success_record host st op]) in
    mkLoop (save_session host w1 s3) s3 out (l_results st ++ [describe op])
  else
    mkLoop w1 s1 (l_current st)
      (l_results st ++ [describe op; LineFailed (op_type op)]).
Proof.
  unfold success_record, process_op, op_success, op_output.
  rewrite reserve_spec. cbn [snd fst].
  destruct (run_engine host (l_world st) (l_current st) _ op) as [w1 ok].
  cbn [snd fst]. destruct ok; cbn.
  - reflexivity.
  - now rewrite <- app_assoc.
Qed.

Lemma process_op_version (st : Loop W) (op : Operation) :
  version (l_session (process_op host st op))
  = version (l_session st) + slots_taken op.
Proof.
  rewrite process_op_spec. now destruct (op_success host st op).
Qed.

Lemma process_op_session_dir (st : Loop W) (op : Operation) :
  session_dir (l_session (process_op host st op))
  = session_dir (l_session st).
Proof.
  rewrite process_op_spec. now destruct (op_success host st op).
Qed.

Lemma process_op_current (st : Loop W) (op : Operation) :
  l_current (process_op host st op)
  = if op_success host st op then op_output st op else l_current st.
Proof.
  rewrite process_op_spec. now destruct (op_success host st op).
Qed.

Lemma process_op_current_file (st : Loop W) (op : Operation) :
  current_file (l_session (process_op host st op))
  = if op_success host st op then Some (op_output st op)
    else current_file (l_session st).
Proof.
  rewrite process_op_spec. now destruct (op_success host st op).
Qed.

Lemma process_op_history (st : Loop W) (op : Operation) :
  history (l_session (process_op host st op))
  = history (l_session st) ++
    (if op_success host st op then [success_record host st op] else []).
Proof.
  rewrite process_op_spec. destruct (op_success host st op); cbn.
  - reflexivity.
  - now rewrite app_nil_r.
Qed.

Lemma process_op_results (st : Loop W) (op : Operation) :
  l_results (process_op host st op)
  = l_results st ++ describe op ::
    (if op_success host st op then [] else [LineFailed (op_type op)]).
Proof.
  rewrite process_op_spec. now destruct (op_success host st op).
Qed.

Lemma process_ops_cons (st : Loop W) (op : Operation) (rest : list Operation) :
  process_ops host st (op :: rest)
  = process_ops host (process_op host st op) rest.
Proof. reflexivity. Qed.

(** *** Version accounting over a batch *)

Lemma process_ops_version (ops : list Operation) (st : Loop W) :
  version (l_session (process_ops host st ops))
  = version (l_session st) + list_sum (map slots_taken ops).
Proof.
  revert st. induction ops as [|op rest IH]; intros st.
  - cbn. lia.
  - rewrite process_ops_cons, IH, process_op_version.
    cbn [map list_sum fold_right].
    change (fold_right Nat.add 0 (map slots_taken rest))
      with (list_sum (map slots_taken rest)).
    lia.
Qed.

Lemma slots_taken_no_master (ops : list Operation) :
  ~ In OpMaster ops -> list_sum (map slots_taken ops) = List.length ops.
Proof.
  induction ops as [|op rest IH]; intros Hno.
  - reflexivity.
  - cbn [map list_sum fold_right List.length].
    change (fold_right Nat.add 0 (map slots_taken rest))
      with (list_sum (map slots_taken rest)).
    rewrite IH by (intros H; apply Hno; now right).
    destruct op; try reflexivity.
    exfalso. apply Hno. now left.
Qed.

Lemma batch_calls_length (ops : list Operation) (st : Loop W) :
  List.length (batch_calls host st ops) = List.length ops.
Proof.
  revert st. induction ops as [|op rest IH]; intros st; cbn.
  - reflexivity.
  - now rewrite IH.
Qed.

Lemma batch_calls_ops (ops : list Operation) (st : Loop W) :
  map c_op (batch_calls host st ops) = ops.
Proof.
  revert st. induction ops as [|op rest IH]; intros st; cbn.
  - reflexivity.
  - now rewrite IH.
Qed.

(** *** History over a batch *)

Lemma process_ops_history (ops : list Operation) (st : Loop W) :
  exists new,
    history (l_session (process_ops host st ops))
    = history (l_session st) ++ new /\
    List.length new = count_ok (batch_calls host st ops) /\
    Forall (fun h => h_result h = "success") new.
Proof.
  revert st. induction ops as [|op rest IH]; intros st.
  - exists []. cbn. rewrite app_nil_r. repeat split. constructor.
  - destruct (IH (process_op host st op)) as (new & Hh & Hlen & Hall).
    rewrite process_ops_cons, Hh, process_op_history.
    unfold count_ok in *. cbn [batch_calls filter c_ok].
    destruct (op_success host st op).
    + exists (success_record host st op :: new).
      rewrite <- app_assoc. cbn. repeat split.
      * now rewrite Hlen.
      * constructor; [reflexivity | assumption].
    + exists new. rewrite app_nil_r. repeat split; assumption.
Qed.

Lemma appended_app (s s' : MixSession) (new : list HistoryEntry) :
  history s' = history s ++ new -> appended s s' = new.
Proof.
  intros H. unfold appended. rewrite H.
  rewrite skipn_app, skipn_all, Nat.sub_diag. reflexivity.
Qed.

(** *** Chaining over a batch *)

Lemma batch_chained (ops : list Operation) (st : Loop W) :
  chained (l_current st) (batch_calls host st ops).
Proof.
  revert st. induction ops as [|op rest IH]; intros st; cbn.
  - exact I.
  - split; [reflexivity|].
    rewrite <- process_op_current. apply IH.
Qed.

Lemma batch_last_ok (ops : list Operation) (st : Loop W) :
  l_current (process_ops host st ops)
  = last_ok (l_current st) (batch_calls host st ops).
Proof.
  revert st. induction ops as [|op rest IH]; intros st.
  - reflexivity.
  - rewrite process_ops_cons, IH. cbn. now rewrite process_op_current.
Qed.

(** The session attribute and the local variable of the loop move
    together. *)
Lemma batch_current_file (ops : list Operation) (st : Loop W) :
  current_file (l_session st) = Some (l_current st) ->
  current_file (l_session (process_ops host st ops))
  = Some (l_current (process_ops host st ops)).
Proof.
  revert st. induction ops as [|op rest IH]; intros st Hinv.
  - exact Hinv.
  - rewrite process_ops_cons. apply IH.
    rewrite process_op_current_file, process_op_current.
    now destruct (op_success host st op).
Qed.

End WithHost.
End EngineFacts.

(* ================================================================== *)
(** ** Batches: versions, history, failures *)
(* ================================================================== *)

Module BatchClaims.
Import Str StrFacts PromptParser ParserFacts Session MixEngineer EngineFacts.
Import SimHost.

(** What [process_prompt] leaves behind, in terms of the loop. *)
Lemma process_prompt_session {W : Type} (host : Host W) (w : W)
      (s : MixSession) (prompt : string) :
  snd (fst (process_prompt host w (Some s) prompt))
  = match entry_checks (Some s) prompt with
    | inl _ => Some s
    | inr (s0, current, parsed) =>
        Some (l_session
                (process_ops host (mkLoop w s0 current [])
                   (operations parsed)))
    end.
Proof.
  unfold process_prompt.
  destruct (entry_checks (Some s) prompt) as [r | [[s0 current] parsed]];
    reflexivity.
Qed.

Lemma entry_checks_inr (s s0 : MixSession) (prompt current : string)
      (parsed : ParseResult) :
  entry_checks (Some s) prompt = inr (s0, current, parsed) ->
  s0 = s /\ current_file s = Some current /\ parsed = parse prompt.
Proof.
  unfold entry_checks.
  destruct (current_file s) as [[|c f]|]; try discriminate.
  destruct (operations (parse prompt)), (requires_suno (parse prompt));
    try discriminate; intros [= <- <- <-]; auto.
Qed.

(** C1, as the code has it.  [get_versioned_path] takes a version number
    before the engine is called and nothing gives it back, so after a
    batch without a mastering operation [version] has grown by the number
    of operations attempted, whether their engine calls succeeded or not.
    The history grows by one "success" record per successful call and by
    nothing else. *)
Theorem version_counts_attempts {W : Type} (host : Host W) (w : W)
        (s : MixSession) (prompt : string) :
  ~ In OpMaster (operations (parse prompt)) ->
  exists s',
    snd (fst (process_prompt host w (Some s) prompt)) = Some s' /\
    version s'
    = version s + List.length (prompt_calls host w (Some s) prompt) /\
    history s' = history s ++ appended s s' /\
    List.length (appended s s')
    = count_ok (prompt_calls host w (Some s) prompt) /\
    Forall (fun h => h_result h = "success") (appended s s').
Proof.
  intros Hno. rewrite process_prompt_session. unfold prompt_calls.
  destruct (entry_checks (Some s) prompt) as [r | [[s0 current] parsed]] eqn:E.
  - exists s. unfold appended.
    rewrite skipn_all, app_nil_r. cbn. repeat split; auto.
  - apply entry_checks_inr in E as (-> & Hcur & ->).
    set (st := mkLoop w s current []).
    exists (l_session (process_ops host st (operations (parse prompt)))).
    destruct (process_ops_history host (operations (parse prompt)) st)
      as (new & Hh & Hlen & Hall).
    pose proof (appended_app s _ new Hh) as Ha. rewrite Ha.
    rewrite process_ops_version, batch_calls_length,
      (slots_taken_no_master _ Hno).
    repeat split; assumption.
Qed.

(** The theorem at work: two operations, the second of which fails. *)
Lemma version_counts_attempts_witness :
  exists s',
    snd (fst (process_prompt no_compressor [] (Some fresh)
                "more bass and compress")) = Some s' /\
    version s' = 2 /\ List.length (appended fresh s') = 1.
Proof.
  destruct (version_counts_attempts no_compressor [] fresh
              "more bass and compress") as (s' & Hs & Hv & _ & Hl & _).
  - vm_compute. intros [H | [H | []]]; discriminate.
  - exists s'. split; [exact Hs|]. split.
    + rewrite Hv. reflexivity.
    + rewrite Hl. reflexivity.
Defined.

(** C1 as stated fails: the prompt "frequency" parses to an EQ with three
    zero gains, whose engine call fails on every host; no call succeeds and
    no record is written, yet [version] moves from 0 to 1. *)
Lemma version_moves_without_success :
  let calls := prompt_calls healthy [] (Some fresh) "frequency" in
  let after := snd (fst (process_prompt healthy [] (Some fresh) "frequency")) in
  count_ok calls = 0 /\
  option_map version after = Some 1 /\
  option_map (fun s' => List.length (appended fresh s')) after = Some 0 /\
  option_map version after <> Some (version fresh + count_ok calls).
Proof.
  vm_compute. repeat split; discriminate.
Qed.

(** C2, as the code has it.  A batch attempts every queued operation, one
    engine call each, whatever the outcome of the calls before it.  Each
    call reads the output of the latest successful call (the file the batch
    started on if there is none), so a failed operation's output is never
    read; the batch ends on that same file.  The history receives one
    "success" record per successful call and no record for a failed one.
    An iteration whose call fails leaves history and current file as they
    were, adds the failure line to the results, keeps the version number
    it took, and hands over to the next iteration. *)
Theorem failed_op_is_skipped {W : Type} (host : Host W) (st : Loop W)
        (ops : list Operation) :
  map c_op (batch_calls host st ops) = ops /\
  chained (l_current st) (batch_calls host st ops) /\
  l_current (process_ops host st ops)
  = last_ok (l_current st) (batch_calls host st ops) /\
  (exists new,
      history (l_session (process_ops host st ops))
      = history (l_session st) ++ new /\
      List.length new = count_ok (batch_calls host st ops) /\
      Forall (fun h => h_result h = "success") new) /\
  (forall op rest,
      op_success host st op = false ->
      let st' := process_op host st op in
      history (l_session st') = history (l_session st) /\
      current_file (l_session st') = current_file (l_session st) /\
      l_current st' = l_current st /\
      l_results st'
      = l_results st ++ [describe op; LineFailed (op_type op)] /\
      version (l_session st) < version (l_session st') /\
      process_ops host st (op :: rest) = process_ops host st' rest).
Proof.
  split; [apply batch_calls_ops|].
  split; [apply batch_chained|].
  split; [apply batch_last_ok|].
  split; [apply process_ops_history|].
  intros op rest Hfail st'. subst st'.
  rewrite process_op_history, process_op_current_file, process_op_current,
    process_op_results, process_op_version, Hfail, app_nil_r.
  repeat split.
  destruct op; cbn; lia.
Qed.

(** The theorem at work on a batch of three whose second call fails: the
    third operation reads the output of the first, and the batch ends on
    the output of the third. *)
Lemma failed_op_is_skipped_witness :
  let ops := operations (parse "more bass, compress and reverb please") in
  let st := mkLoop ([] : World) fresh "song.wav" [] in
  let st1 := process_op no_compressor st (OpEq 4 0 0) in
  ops = [OpEq 4 0 0; OpCompression (-20) 4 5 50; OpReverb 0.5 0.5 0.3] /\
  map c_ok (batch_calls no_compressor st ops) = [true; false; true] /\
  chained "song.wav" (batch_calls no_compressor st ops) /\
  l_current (process_op no_compressor st1 (OpCompression (-20) 4 5 50))
  = "sessions/demo/v001_eq.wav" /\
  l_current (process_ops no_compressor st ops)
  = "sessions/demo/v003_reverb.wav".
Proof.
  intros ops st st1.
  destruct (failed_op_is_skipped no_compressor st ops)
    as (_ & Hchain & Hlast & _ & _).
  destruct (failed_op_is_skipped no_compressor st1 [])
    as (_ & _ & _ & _ & Hfail).
  destruct (Hfail (OpCompression (-20) 4 5 50) [OpReverb 0.5 0.5 0.3])
    as (_ & _ & Hcur & _); [vm_compute; reflexivity|].
  split; [vm_compute; reflexivity|].
  split; [vm_compute; reflexivity|].
  split; [exact Hchain|].
  split.
  - rewrite Hcur. vm_compute. reflexivity.
  - rewrite Hlast. vm_compute. reflexivity.
Defined.

(** C2 as stated fails on its first two points: on "frequency" the one
    engine call fails, nothing is appended to the history (so no record
    with outcome "failure"), and [version] has moved from 0 to 1. *)
Lemma failure_leaves_no_record :
  let calls := prompt_calls healthy [] (Some fresh) "frequency" in
  let after := snd (fst (process_prompt healthy [] (Some fresh) "frequency")) in
  map c_ok calls = [false] /\
  option_map history after = Some (history fresh) /\
  option_map version after = Some (S (version fresh)).
Proof.
  vm_compute. repeat split.
Qed.

End BatchClaims.

(* ================================================================== *)
(** ** Prompts that master, prompts that say nothing, EQ without a cue *)
(* ================================================================== *)

Module PromptClaims.
Import Str StrFacts PromptParser ParserFacts Session MixEngineer EngineFacts.
Import SimHost.

Lemma master_keyword_parsed (t : string) :
  any_in MASTER_KEYWORDS (lower t) = true ->
  In OpMaster (operations (parse t)).
Proof.
  intros H. unfold parse, family_ops, operations. cbv zeta. rewrite H.
  rewrite !in_app_iff. do 5 right. now left.
Qed.

(** C8. A text whose lower-cased form contains none of the keywords of
    the six families and no style keyword parses to an empty operation
    list with both flags off, and [process_prompt] on a session that has a
    source file answers it with the list of example phrasings, leaving
    world and session untouched. *)
Theorem no_keyword_gets_suggestions {W : Type} (host : Host W) (w : W)
        (s : MixSession) (source t : string) :
  any_in ALL_KEYWORDS (lower t) = false ->
  current_file s = Some source ->
  source <> "" ->
  operations (parse t) = [] /\
  requires_audio_processing (parse t) = false /\
  requires_suno (parse t) = false /\
  process_prompt host w (Some s) t = (w, Some s, Suggestions).
Proof.
  intros Hkw Hcur Hne.
  pose proof (parse_no_keyword t Hkw) as Hp.
  rewrite Hp. cbn. repeat split.
  unfold process_prompt, entry_checks. rewrite Hcur, Hp. cbn.
  destruct source; [contradiction|reflexivity].
Qed.

Lemma no_keyword_gets_suggestions_witness :
  operations (parse "hello there") = [] /\
  requires_audio_processing (parse "hello there") = false /\
  requires_suno (parse "hello there") = false /\
  process_prompt healthy [] (Some fresh) "hello there"
  = ([], Some fresh, Suggestions).
Proof.
  apply (no_keyword_gets_suggestions healthy [] fresh "song.wav"
           "hello there").
  - vm_compute. reflexivity.
  - reflexivity.
  - discriminate.
Defined.

(** C10. A text with an EQ keyword and none of the cue phrases of
    [_parse_eq] still gets an EQ operation, with all three gains 0, at the
    head of its operation list.  Applying it fails on every host:
    [apply_eq] collects no filter and returns [False] with the world as it
    was, no process started; the iteration of the batch that carries it
    fails. *)
Theorem eq_without_cue_always_fails {W : Type} (host : Host W) (w : W)
        (input output t : string) (st : Loop W) :
  any_in EQ_KEYWORDS (lower t) = true ->
  any_in EQ_CUES (lower t) = false ->
  hd_error (operations (parse t)) = Some (OpEq 0 0 0) /\
  AudioProcessor.eq_filters 0 0 0 = [] /\
  AudioProcessor.apply_eq host w input output 0 0 0 = (w, false) /\
  run_engine host w input output (OpEq 0 0 0) = (w, false) /\
  op_success host st (OpEq 0 0 0) = false.
Proof.
  intros Hkw Hcue.
  rewrite parse_eq_first by assumption.
  rewrite parse_eq_no_cue by (now apply any_in_false).
  repeat split.
Qed.

Lemma eq_without_cue_always_fails_witness :
  hd_error (operations (parse "fix the frequency")) = Some (OpEq 0 0 0) /\
  run_engine healthy [] "song.wav" "out.wav" (OpEq 0 0 0) = ([], false).
Proof.
  destruct (eq_without_cue_always_fails healthy [] "song.wav" "out.wav"
              "fix the frequency" (mkLoop [] fresh "song.wav" []))
    as (Hhd & _ & _ & Hrun & _).
  - vm_compute. reflexivity.
  - vm_compute. reflexivity.
  - split; [exact Hhd | exact Hrun].
Defined.

(** The volume example [_suggest_operations] itself offers is not
    understood by [parse]: no operation comes out of it. *)
Lemma suggested_volume_example_unparsed :
  In ("Volume / Levels", ["make it louder"; "turn it down 3dB"])
     SUGGESTED_EXAMPLES /\
  operations (parse "turn it down 3dB") = [] /\
  process_prompt healthy [] (Some fresh) "turn it down 7db"
  = ([], Some fresh, Suggestions).
Proof.
  split; [cbn; tauto|]. split; vm_compute; reflexivity.
Qed.

End PromptClaims.

(* ================================================================== *)
(** ** Undo *)
(* ================================================================== *)

Module UndoClaims.
Import Str StrFacts Session MixEngineer.
Import SimHost.

(** C4, as the code has it.  [undo] answers "Nothing to undo" exactly
    when no session is active or [version] is below 2.  From version 2 on,
    when the glob for the previous version finds a file that exists, it
    makes that file current, lowers [version] by one, saves, and reports
    the version it went back to.  Right after [set_source] the version is
    0 and the answer is "Nothing to undo". *)
Theorem undo_guard {W : Type} (host : Host W) (w : W) (s : MixSession) :
  snd (undo host w None) = NothingToUndo /\
  (snd (undo host w (Some s)) = NothingToUndo <-> version s < 2) /\
  (forall f,
      2 <= version s ->
      hd_error (glob host w (session_dir s)
                  ("v" ++ fmt_03d (version s - 1) ++ "*.wav")%string)
      = Some f ->
      f <> "" ->
      path_exists host w f = true ->
      let s' := with_version (with_current_file s (Some f)) (version s - 1) in
      undo host w (Some s)
      = (save_session host w s', Some s', Reverted (version s - 1))) /\
  (forall w0 file_path,
      snd (undo host w
             (Some (snd (Session.set_source host w0 s file_path))))
      = NothingToUndo).
Proof.
  split; [reflexivity|]. split; [|split].
  - unfold undo. destruct (Nat.ltb_spec (version s) 2) as [Hlt | Hge].
    + split; [intros _; exact Hlt | reflexivity].
    + split; [|lia].
      destruct (hd_error _) as [f|]; [|discriminate].
      destruct (negb (f =? "")%string && path_exists host w f);
        discriminate.
  - intros f Hge Hglob Hne Hex s'. unfold undo.
    destruct (Nat.ltb_spec (version s) 2) as [Hlt | _]; [lia|].
    rewrite Hglob, Hex.
    destruct (String.eqb_spec f ""); [contradiction|reflexivity].
  - reflexivity.
Qed.

(** The theorem at work at version 2, with [v001_eq.wav] on disk. *)
Lemma undo_guard_witness :
  let w := ["sessions/demo/v002_eq.wav"; "sessions/demo/v001_eq.wav"] in
  let s := with_version
             (with_current_file fresh (Some "sessions/demo/v002_eq.wav")) 2 in
  snd (undo healthy w (Some s)) = Reverted 1 /\
  option_map version (snd (fst (undo healthy w (Some s)))) = Some 1 /\
  option_map current_file (snd (fst (undo healthy w (Some s))))
  = Some (Some "sessions/demo/v001_eq.wav").
Proof.
  intros w s.
  destruct (undo_guard healthy w s) as (_ & _ & Hback & _).
  rewrite (Hback "sessions/demo/v001_eq.wav").
  - repeat split.
  - cbn. lia.
  - vm_compute. reflexivity.
  - discriminate.
  - vm_compute. reflexivity.
Defined.

(** C4 as stated fails at version 1: the session is one operation past
    its source, a file tagged with version 0 is on disk and the glob finds
    it, and [undo] still answers "Nothing to undo". *)
Lemma undo_refuses_at_version_one :
  let w := ["sessions/demo/v001_eq.wav"; "sessions/demo/v000_source.wav"] in
  let s := with_version
             (with_current_file fresh (Some "sessions/demo/v001_eq.wav")) 1 in
  1 <= version s /\
  hd_error (glob healthy w (session_dir s)
              ("v" ++ fmt_03d (version s - 1) ++ "*.wav")%string)
  = Some "sessions/demo/v000_source.wav" /\
  path_exists healthy w "sessions/demo/v000_source.wav" = true /\
  undo healthy w (Some s) = (w, Some s, NothingToUndo).
Proof.
  vm_compute. repeat split. lia.
Qed.

End UndoClaims.

(* ================================================================== *)
(** ** Versioned file names *)
(* ================================================================== *)

Module NameFacts.
Import Str Session.

Lemma append_inv_head (a x y : string) :
  (a ++ x)%string = (a ++ y)%string -> x = y.
Proof.
  induction a as [|c a IH]; cbn; intros H.
  - exact H.
  - injection H as H. now apply IH.
Qed.

Lemma all_digits_app (a b : string) :
  all_digits (a ++ b) = all_digits a && all_digits b.
Proof.
  induction a as [|c a IH]; cbn.
  - reflexivity.
  - now rewrite IH, andb_assoc.
Qed.

Lemma all_digits_zeros (k : nat) : all_digits (zeros k) = true.
Proof. induction k; cbn; auto. Qed.

Lemma all_digits_uint (d : Decimal.uint) :
  all_digits (NilEmpty.string_of_uint d) = true.
Proof. induction d; cbn; auto. Qed.

Lemma all_digits_fmt_03d (n : nat) : all_digits (fmt_03d n) = true.
Proof.
  unfold fmt_03d, of_nat.
  now rewrite all_digits_app, all_digits_zeros, all_digits_uint.
Qed.

(** A run of digits followed by a non-digit is what [span] cuts off. *)
Lemma span_digits (a : string) (c : ascii) (r : string) :
  all_digits a = true -> is_digit c = false ->
  span is_digit (a ++ String c r) = (a, String c r).
Proof.
  intros Ha Hc. induction a as [|x a IH]; cbn.
  - now rewrite Hc.
  - cbn in Ha. apply andb_prop in Ha as [Hx Ha].
    now rewrite Hx, IH.
Qed.

Lemma read_nat_zero_prefix (s : string) :
  read_nat (String "0" s) = read_nat s.
Proof.
  unfold read_nat. cbn.
  destruct (NilEmpty.uint_of_string s); reflexivity.
Qed.

Lemma read_nat_zeros (k : nat) (s : string) :
  read_nat (zeros k ++ s) = read_nat s.
Proof.
  induction k as [|k IH]; cbn [zeros append].
  - reflexivity.
  - now rewrite read_nat_zero_prefix.
Qed.

(** The padded rendering reads back as the number it renders. *)
Lemma read_nat_fmt_03d (n : nat) : read_nat (fmt_03d n) = Some n.
Proof.
  unfold fmt_03d. rewrite read_nat_zeros.
  unfold read_nat, of_nat. rewrite NilEmpty.usu. cbn.
  now rewrite DecimalNat.Unsigned.of_to.
Qed.

Lemma fmt_03d_inj (n m : nat) : fmt_03d n = fmt_03d m -> n = m.
Proof.
  intros H. pose proof (read_nat_fmt_03d n) as Hn.
  rewrite H, read_nat_fmt_03d in Hn. now injection Hn.
Qed.

(** Two slot names in one directory agree only on the same version. *)
Lemma versioned_name_inj (dir : string) (v1 v2 : nat) (r1 r2 : string) :
  versioned_name dir v1 (String "_" r1) = versioned_name dir v2 (String "_" r2)
  -> v1 = v2.
Proof.
  unfold versioned_name. intros H.
  apply append_inv_head in H. cbn [append] in H. injection H as H.
  apply fmt_03d_inj.
  assert (Hs : fst (span is_digit (fmt_03d v1 ++ String "_" (r1 ++ ".wav")))
               = fst (span is_digit
                        (fmt_03d v2 ++ String "_" (r2 ++ ".wav"))))
    by now rewrite H.
  rewrite !span_digits in Hs by (auto using all_digits_fmt_03d).
  exact Hs.
Qed.

End NameFacts.

(* ================================================================== *)
(** ** The slots [get_versioned_path] hands out *)
(* ================================================================== *)

Module SlotClaims.
Import Str Session MixEngineer EngineFacts NameFacts BatchClaims.
Import SimHost.

Lemma slot_in_weaken (dir : string) (lo hi lo' hi' : nat) (p : string) :
  lo' <= lo -> hi <= hi' -> slot_in dir lo hi p -> slot_in dir lo' hi' p.
Proof.
  intros Hlo Hhi (v & r & Hv & ->). exists v, r. split; [lia|reflexivity].
Qed.

(** Slots of disjoint version ranges are different paths. *)
Lemma slot_in_disjoint (dir : string) (lo mid hi : nat) (p : string) :
  slot_in dir lo mid p -> slot_in dir mid hi p -> False.
Proof.
  intros (v1 & r1 & Hv1 & ->) (v2 & r2 & Hv2 & Heq).
  apply versioned_name_inj in Heq. lia.
Qed.

Section WithHost.
Context {W : Type} (host : Host W).

Lemma op_slots_spec (st : Loop W) (op : Operation) :
  NoDup (op_slots st op) /\
  Forall (slot_in (session_dir (l_session st)) (version (l_session st))
            (version (l_session st) + slots_taken op))
         (op_slots st op).
Proof.
  unfold op_slots, get_versioned_path. cbn [version session_dir with_version].
  set (dir := session_dir (l_session st)).
  set (v := version (l_session st)).
  assert (Hone : forall ty k,
             1 <= k ->
             slot_in dir v (v + k)
               (versioned_name dir (S v) ("_" ++ ty)%string)).
  { intros ty k Hk. exists (S v), ty. split; [lia|reflexivity]. }
  destruct op; cbn [op_type slots_taken snd];
    try (split; [repeat constructor; cbn; tauto
                | repeat constructor; apply Hone; lia]).
  split.
  - constructor; [|repeat constructor; cbn; tauto].
    intros [Heq | []].
    change "_master_temp" with (String "_" "master_temp") in Heq.
    change ("_" ++ "master")%string with (String "_" "master") in Heq.
    apply versioned_name_inj in Heq. lia.
  - repeat constructor; [apply Hone; lia|].
    exists (S (S v)), "master_temp". split; [lia|reflexivity].
Qed.

(** The slots of one batch are pairwise different and lie between the
    version before and the version after it. *)
Lemma batch_slots_spec (ops : list Operation) (st : Loop W) :
  NoDup (batch_slots host st ops) /\
  Forall (slot_in (session_dir (l_session st)) (version (l_session st))
            (version (l_session (process_ops host st ops))))
         (batch_slots host st ops).
Proof.
  revert st. induction ops as [|op rest IH]; intros st.
  - cbn. split; constructor.
  - destruct (IH (process_op host st op)) as (Hnd & Hall).
    destruct (op_slots_spec st op) as (Hnd0 & Hall0).
    rewrite process_op_session_dir, process_op_version in Hall.
    rewrite process_ops_cons. cbn [batch_slots].
    pose proof (process_ops_version host rest (process_op host st op)) as Hv.
    rewrite process_op_version in Hv.
    split.
    + apply NoDup_app; [assumption..|].
      intros p Hp Hq.
      rewrite Forall_forall in Hall0, Hall.
      exact (slot_in_disjoint _ _ _ _ _ (Hall0 p Hp) (Hall p Hq)).
    + apply Forall_app. split.
      * eapply Forall_impl; [|exact Hall0].
        intros p. apply slot_in_weaken; lia.
      * eapply Forall_impl; [|exact Hall].
        intros p. apply slot_in_weaken; lia.
Qed.

Lemma process_ops_session_dir (ops : list Operation) (st : Loop W) :
  session_dir (l_session (process_ops host st ops))
  = session_dir (l_session st).
Proof.
  revert st. induction ops as [|op rest IH]; intros st.
  - reflexivity.
  - rewrite process_ops_cons, IH. apply process_op_session_dir.
Qed.

(** One [process_prompt] call on an active session: the session stays in
    its directory, the version does not go down, and the slots handed out
    lie between the two versions. *)
Lemma prompt_slots_spec (w : W) (s : MixSession) (prompt : string) :
  exists s',
    snd (fst (process_prompt host w (Some s) prompt)) = Some s' /\
    session_dir s' = session_dir s /\
    version s <= version s' /\
    NoDup (prompt_slots host w (Some s) prompt) /\
    Forall (slot_in (session_dir s) (version s) (version s'))
           (prompt_slots host w (Some s) prompt).
Proof.
  rewrite process_prompt_session. unfold prompt_slots.
  destruct (entry_checks (Some s) prompt) as [r | [[s0 current] parsed]] eqn:E.
  - exists s. repeat split; auto; constructor.
  - apply entry_checks_inr in E as (-> & _ & ->).
    set (st := mkLoop w s current []).
    exists (l_session
              (process_ops host st (operations (PromptParser.parse prompt)))).
    destruct (batch_slots_spec (operations (PromptParser.parse prompt)) st)
      as (Hnd & Hall).
    split; [reflexivity|]. split; [|split; [|split; assumption]].
    + apply process_ops_session_dir.
    + rewrite process_ops_version. cbn. lia.
Qed.

Lemma run_slots_no_session (cmds : list Command) (w : W) :
  run_slots host w None cmds = [].
Proof.
  revert w. induction cmds as [|[prompt|] rest IH]; intros w; cbn; auto.
Qed.

Lemma run_slots_mix_only (cmds : list Command) (w : W) (s : MixSession) :
  forallb is_mix cmds = true ->
  NoDup (run_slots host w (Some s) cmds) /\
  Forall (fun p => exists hi, slot_in (session_dir s) (version s) hi p)
         (run_slots host w (Some s) cmds).
Proof.
  revert w s. induction cmds as [|[prompt|] rest IH]; intros w s Hmix.
  - cbn. split; constructor.
  - cbn [forallb is_mix andb] in Hmix. cbn [run_slots].
    destruct (prompt_slots_spec w s prompt)
      as (s' & Hs' & Hdir & Hver & Hnd & Hall).
    destruct (process_prompt host w (Some s) prompt) as [[w' session'] reply].
    cbn [fst snd] in Hs'. subst session'.
    destruct (IH w' s' Hmix) as (Hnd' & Hall').
    rewrite Hdir in Hall'.
    rewrite Forall_forall in Hall, Hall'.
    split.
    + apply NoDup_app; [assumption..|].
      intros p Hp Hq. destruct (Hall' p Hq) as (hi & Hin).
      exact (slot_in_disjoint _ _ _ _ _ (Hall p Hp) Hin).
    + apply Forall_forall. intros p Hp.
      apply in_app_or in Hp as [Hp | Hp].
      * exists (version s'). now apply Hall.
      * destruct (Hall' p Hp) as (hi & Hin). exists hi.
        revert Hin. apply slot_in_weaken; lia.
  - discriminate.
Qed.

End WithHost.

(** What a successful [undo] does to the numbering: the counter is one
    lower, so the next path is named after the version just undone. *)
Lemma undo_steps_counter_back {W : Type} (host : Host W) (w : W)
      (s : MixSession) (n : nat) :
  snd (undo host w (Some s)) = Reverted n ->
  exists w' s',
    fst (undo host w (Some s)) = (w', Some s') /\
    session_dir s' = session_dir s /\
    S (version s') = version s.
Proof.
  unfold undo. destruct (Nat.ltb_spec (version s) 2) as [Hlt | Hge];
    [discriminate|].
  destruct (hd_error _) as [f|]; [|discriminate].
  destruct (negb (f =? "")%string && path_exists host w f); [|discriminate].
  intros _. eexists _, _. split; [reflexivity|]. cbn. split; [reflexivity|].
  lia.
Qed.

Lemma prompt_slots_head {W : Type} (host : Host W) (w : W)
      (s : MixSession) (prompt p : string) :
  hd_error (prompt_slots host w (Some s) prompt) = Some p ->
  exists op,
    hd_error (operations (PromptParser.parse prompt)) = Some op /\
    p = versioned_name (session_dir s) (S (version s))
          ("_" ++ op_type op)%string.
Proof.
  unfold prompt_slots.
  destruct (entry_checks (Some s) prompt)
    as [r | [[s0 current] parsed]] eqn:E; [discriminate|].
  apply entry_checks_inr in E as (-> & _ & ->).
  destruct (operations (PromptParser.parse prompt)) as [|op rest];
    [discriminate|].
  cbn [batch_slots]. intros H. exists op. split; [reflexivity|].
  unfold op_slots, get_versioned_path in H.
  cbn [l_session version session_dir with_version] in H.
  destruct op; cbn [app hd_error] in H; now injection H as <-.
Qed.

(** C5, as the code has it.  Over any run of mixing prompts with no
    [undo] between them, every path [get_versioned_path] returns differs
    from every path it returned before in that run.  A successful [undo]
    steps the version counter back by one, so the next path
    [get_versioned_path] returns, and with it the first path handed out by
    the next prompt, is named after the version number the session had
    before the undo once more: it is an earlier path again whenever that
    number was handed out before with the same suffix. *)
Theorem slots_repeat_only_after_undo {W : Type} (host : Host W) (w : W)
        (session : option MixSession) (cmds : list Command)
        (s : MixSession) (n : nat) :
  (forallb is_mix cmds = true ->
   NoDup (run_slots host w session cmds)) /\
  (snd (undo host w (Some s)) = Reverted n ->
   exists w' s',
     fst (undo host w (Some s)) = (w', Some s') /\
     (forall suffix,
         snd (get_versioned_path s' suffix)
         = versioned_name (session_dir s) (version s) suffix) /\
     (forall prompt p,
         hd_error (prompt_slots host w' (Some s') prompt) = Some p ->
         exists op,
           hd_error (operations (PromptParser.parse prompt)) = Some op /\
           p = versioned_name (session_dir s) (version s)
                 ("_" ++ op_type op)%string)).
Proof.
  split.
  - intros Hmix. destruct session as [s0|].
    + now apply run_slots_mix_only.
    + rewrite run_slots_no_session. constructor.
  - intros Hrev.
    destruct (undo_steps_counter_back host w s n Hrev)
      as (w' & s' & Hu & Hdir & Hver).
    exists w', s'. split; [exact Hu|]. split.
    + intros suffix. unfold get_versioned_path.
      cbn [snd version session_dir with_version]. now rewrite Hdir, Hver.
    + intros prompt p Hp.
      apply prompt_slots_head in Hp as (op & Hop & ->).
      exists op. split; [exact Hop|]. now rewrite Hdir, Hver.
Qed.

(** The theorem at work: a run without undo, and the path after an undo
    from version 2. *)
Lemma slots_repeat_only_after_undo_witness :
  let w := ["sessions/demo/v002_eq.wav"; "sessions/demo/v001_eq.wav"] in
  let s := with_version
             (with_current_file fresh (Some "sessions/demo/v002_eq.wav")) 2 in
  NoDup (run_slots healthy [] (Some fresh)
           [Mix "more bass"; Mix "master it"; Mix "more bass"]) /\
  exists w' s',
    fst (undo healthy w (Some s)) = (w', Some s') /\
    snd (get_versioned_path s' "_eq") = "sessions/demo/v002_eq.wav".
Proof.
  intros w s.
  destruct (slots_repeat_only_after_undo healthy [] (Some fresh)
              [Mix "more bass"; Mix "master it"; Mix "more bass"] s 1)
    as [Hnd _].
  destruct (slots_repeat_only_after_undo healthy w (Some fresh) [] s 1)
    as [_ Hundo].
  split; [apply Hnd; reflexivity|].
  destruct Hundo as (w' & s' & Hu & Hnext & _); [vm_compute; reflexivity|].
  exists w', s'. split; [exact Hu|].
  rewrite Hnext. vm_compute. reflexivity.
Defined.

(** C5 as stated fails once [undo] steps the version back: after two EQ
    prompts and an undo, the next EQ prompt is handed [v002_eq.wav], the
    path the second prompt was handed. *)
Lemma slot_reused_after_undo :
  let cmds := [Mix "more bass"; Mix "more bass"; Undo; Mix "more bass"] in
  run_slots healthy [] (Some fresh) cmds
  = ["sessions/demo/v001_eq.wav"; "sessions/demo/v002_eq.wav";
     "sessions/demo/v002_eq.wav"] /\
  ~ NoDup (run_slots healthy [] (Some fresh) cmds).
Proof.
  assert (E : run_slots healthy [] (Some fresh)
                [Mix "more bass"; Mix "more bass"; Undo; Mix "more bass"]
              = ["sessions/demo/v001_eq.wav"; "sessions/demo/v002_eq.wav";
                 "sessions/demo/v002_eq.wav"])
    by (vm_compute; reflexivity).
  cbv zeta. rewrite E. split; [reflexivity|].
  intros H. inversion H as [|? ? _ H2]; subst.
  inversion H2 as [|? ? Hnin _]; subst.
  apply Hnin. now left.
Qed.

End SlotClaims.

(* ================================================================== *)
(** ** The parameter ladders of the parser *)
(* ================================================================== *)

Module LadderFacts.
Import Str StrFacts PromptParser ParserFacts.

Lemma starts_with_contains (kw s : string) :
  starts_with kw s = true -> contains kw s = true.
Proof. intros H. destruct s; cbn; now rewrite H. Qed.

Lemma contains_tail (kw : string) (c : ascii) (s : string) :
  contains kw s = true -> contains kw (String c s) = true.
Proof. intros H. cbn. rewrite H. apply orb_true_r. Qed.

Lemma starts_with_app_contains (a b s : string) :
  starts_with (a ++ b) s = true -> contains b s = true.
Proof.
  revert s. induction a as [|x a IH]; intros s H.
  - now apply starts_with_contains.
  - destruct s as [|y s]; [discriminate|].
    cbn in H. apply andb_prop in H as [_ H].
    apply contains_tail. now apply IH.
Qed.

(** A text that contains a phrase contains every tail of the phrase. *)
Lemma contains_app_r (a b s : string) :
  contains (a ++ b) s = true -> contains b s = true.
Proof.
  induction s as [|c s IH]; intros H.
  - cbn in H. rewrite orb_false_r in H.
    now apply starts_with_app_contains in H.
  - cbn [contains] in H. apply orb_prop in H as [H | H].
    + now apply starts_with_app_contains in H.
    + apply contains_tail. now apply IH.
Qed.

(** X1. The qualitative ladder of [_parse_volume] only ever yields 3, -3
    or 0: its branches for "much louder" and "much quieter" come after the
    branches for "louder" and "quieter", which every such text already
    takes.  So "much louder" gives 3, and without a number in front of
    "db" the parsed volume is one of 3, -3 and 0. *)
Theorem volume_ladder_never_six (p : string) :
  In (volume_qualitative p) [3; -3; 0]%Z /\
  (contains "much louder" p = true -> volume_qualitative p = 3%Z) /\
  (contains "much quieter" p = true ->
   In (volume_qualitative p) [3; -3]%Z) /\
  (db_search p = None ->
   In (_parse_volume p) [OpVolume 3; OpVolume (-3); OpVolume 0]).
Proof.
  pose proof (contains_app_r "much " "louder" p) as Hl.
  pose proof (contains_app_r "much " "quieter" p) as Hq.
  change ("much " ++ "louder")%string with "much louder" in Hl.
  change ("much " ++ "quieter")%string with "much quieter" in Hq.
  unfold _parse_volume, volume_qualitative. cbv zeta beta.
  destruct (contains "much louder" p);
    [rewrite (Hl eq_refl)|]; clear Hl;
    (destruct (contains "much quieter" p);
     [rewrite (Hq eq_refl)|]; clear Hq);
    repeat match goal with
           | |- context [contains ?k p] => destruct (contains k p)
           end;
    cbn; repeat split; intros; subst;
    repeat match goal with
           | H : ?x = None |- context [?x] => rewrite H
           end;
    cbn; try discriminate; tauto.
Qed.

Lemma volume_ladder_never_six_witness :
  volume_qualitative "make it much louder" = 3%Z /\
  _parse_volume "make it much quieter" = OpVolume (-3).
Proof.
  destruct (volume_ladder_never_six "make it much louder") as (_ & Hl & _).
  split; [apply Hl; vm_compute; reflexivity|].
  vm_compute. reflexivity.
Defined.

(** X2. [_parse_width] only ever yields 1.5, 0.5 or 1.0: the branch for
    "very wide" comes after the branch for "wide", which every such text
    already takes, so the width 2.0 is never produced. *)
Theorem width_ladder_never_two (p : string) :
  In (_parse_width p)
     [OpStereoWidth 1.5; OpStereoWidth 0.5; OpStereoWidth 1.0] /\
  _parse_width p <> OpStereoWidth 2.0 /\
  (contains "very wide" p = true -> _parse_width p = OpStereoWidth 1.5).
Proof.
  pose proof (contains_app_r "very " "wide" p) as Hw.
  change ("very " ++ "wide")%string with "very wide" in Hw.
  unfold _parse_width. cbv zeta beta.
  destruct (contains "very wide" p);
    [rewrite (Hw eq_refl)|]; clear Hw;
    repeat match goal with
           | |- context [contains ?k p] => destruct (contains k p)
           end;
    cbn; repeat split; intros; try discriminate; tauto.
Qed.

Lemma width_ladder_never_two_witness :
  _parse_width "make it very wide" = OpStereoWidth 1.5.
Proof.
  destruct (width_ladder_never_two "make it very wide") as (_ & _ & H).
  apply H. vm_compute. reflexivity.
Defined.

(** X3. Whatever the text, the gains [_parse_eq] returns come from small
    fixed sets: bass from 4, -4, 2, 0; mid from 3, -4, -2, 0; treble from
    3, -3, 2, -1, 0.  Every gain lies between -4 and 4 dB. *)
Theorem eq_gains_bounded (p : string) :
  exists bass mid treble,
    _parse_eq p = OpEq bass mid treble /\
    In bass [4; -4; 2; 0]%Z /\
    In mid [3; -4; -2; 0]%Z /\
    In treble [3; -3; 2; -1; 0]%Z /\
    (-4 <= bass <= 4)%Z /\ (-4 <= mid <= 4)%Z /\ (-4 <= treble <= 4)%Z.
Proof.
  unfold _parse_eq. cbv zeta beta.
  split_ifs; do 3 eexists; (split; [reflexivity|]);
    cbn; repeat split; try lia; tauto.
Qed.

(** X4. Whatever the text, the parameters [_parse_reverb] returns come
    from the literals of its ladders, and each lies in the unit
    interval. *)
Theorem reverb_params_in_unit_interval (p : string) :
  exists room_size damping wet,
    _parse_reverb p = OpReverb room_size damping wet /\
    In room_size [0.9; 0.3; 0.6; 0.5]%Q /\
    In damping [0.5; 0.3]%Q /\
    In wet [0.5; 0.15; 0.4; 0.2; 0.3]%Q /\
    (0 <= room_size <= 1)%Q /\ (0 <= damping <= 1)%Q /\ (0 <= wet <= 1)%Q.
Proof.
  unfold _parse_reverb. cbv zeta beta.
  split_ifs; do 3 eexists; (split; [reflexivity|]);
    (split; [cbn; tauto|]); (split; [cbn; tauto|]); (split; [cbn; tauto|]);
    unfold Qle; cbn; lia.
Qed.

(** X5. [_parse_compression] returns one of five fixed settings; the
    threshold lies between -25 and -10 dB, the ratio between 2 and 8, and
    a text with "heavy" or "squash" always gets the 8:1 setting at
    -25 dB. *)
Theorem compression_settings (p : string) :
  In (_parse_compression p)
     [OpCompression (-25) 8 5 50; OpCompression (-15) 2 5 50;
      OpCompression (-20) 4 20 50; OpCompression (-10) 2 5 50;
      OpCompression (-20) 4 5 50] /\
  (exists th r a rl,
      _parse_compression p = OpCompression th r a rl /\
      (-25 <= th <= -10)%Z /\ (2 <= r <= 8)%Z /\ In a [5; 20]%Z /\
      rl = 50%Z) /\
  (contains "heavy" p || contains "squash" p = true ->
   _parse_compression p = OpCompression (-25) 8 5 50).
Proof.
  unfold _parse_compression. cbv zeta beta.
  split_ifs; cbn; (split; [tauto|]);
    (split; [do 4 eexists; split; [reflexivity|];
             cbn; repeat split; try lia; tauto
            | intros; try discriminate; reflexivity]).
Qed.

Lemma compression_settings_witness :
  _parse_compression "squash the drums gently" = OpCompression (-25) 8 5 50.
Proof.
  destruct (compression_settings "squash the drums gently") as (_ & _ & H).
  apply H. vm_compute. reflexivity.
Defined.

Lemma parse_types_nodup (t : string) :
  NoDup (map op_type (operations (parse t))).
Proof.
  rewrite parse_types_in_family_order. apply NoDup_filter.
  unfold family_order.
  repeat (constructor; [cbn; intuition discriminate|]). constructor.
Qed.

(** X6. [parse] emits at most one operation per family: no tag occurs
    twice in the operation list, which therefore has at most six
    entries. *)
Theorem one_operation_per_family (t : string) :
  NoDup (map op_type (operations (parse t))) /\
  List.length (operations (parse t)) <= 6.
Proof.
  split.
  - apply parse_types_nodup.
  - rewrite <- (length_map op_type), parse_types_in_family_order.
    apply (filter_length_le (family_fires (lower t)) family_order).
Qed.

End LadderFacts.

(* ================================================================== *)
(** ** The number in front of "db" *)
(* ================================================================== *)

Module DbFacts.
Import Str StrMore StrFacts PromptParser NameFacts.

Lemma digit_not_sign (c : ascii) :
  is_digit c = true -> Ascii.eqb c "+" = false /\ Ascii.eqb c "-" = false.
Proof.
  destruct c as [[] [] [] [] [] [] [] []]; intros H;
    try discriminate H; split; reflexivity.
Qed.

(** At a position that does not start with a sign the pattern reads
    digits, blanks and "db" from that very position. *)
Lemma db_match_here_unsigned (c : ascii) (r : string) :
  Ascii.eqb c "+" = false -> Ascii.eqb c "-" = false ->
  db_match_here (String c r)
  = let '(ds, s2) := span is_digit (String c r) in
    match ds with
    | EmptyString => None
    | _ =>
        let '(_, s3) := span is_space s2 in
        if starts_with "db" s3 then Some (digits_value ds) else None
    end.
Proof.
  destruct c as [[] [] [] [] [] [] [] []]; intros Hp Hm;
    try discriminate Hp; try discriminate Hm; reflexivity.
Qed.

Lemma db_match_here_signed (c : ascii) (r : string) :
  Ascii.eqb c "+" = true \/ Ascii.eqb c "-" = true ->
  db_match_here (String c r)
  = let '(ds, s2) := span is_digit r in
    match ds with
    | EmptyString => None
    | _ =>
        let '(_, s3) := span is_space s2 in
        if starts_with "db" s3
        then Some (if Ascii.eqb c "-" then (- digits_value ds)%Z
                   else digits_value ds)
        else None
    end.
Proof.
  destruct c as [[] [] [] [] [] [] [] []]; intros [H | H];
    try discriminate H; reflexivity.
Qed.

(** No match starts at a non-digit, unless it is a sign with a digit
    right behind it. *)
Lemma db_match_here_nondigit (c : ascii) (r : string) :
  is_digit c = false ->
  (Ascii.eqb c "+" = false /\ Ascii.eqb c "-" = false) \/
  fst (span is_digit r) = "" ->
  db_match_here (String c r) = None.
Proof.
  intros Hd Hs.
  destruct (Ascii.eqb c "+") eqn:Ep; [|destruct (Ascii.eqb c "-") eqn:Em].
  - rewrite db_match_here_signed by auto.
    destruct Hs as [[H _] | H]; [discriminate|].
    destruct (span is_digit r) as [ds s2]. cbn in H. now subst ds.
  - rewrite db_match_here_signed by auto.
    destruct Hs as [[_ H] | H]; [discriminate|].
    destruct (span is_digit r) as [ds s2]. cbn in H. now subst ds.
  - rewrite db_match_here_unsigned by assumption.
    cbn [span]. now rewrite Hd.
Qed.

Lemma span_prefix (p : ascii -> bool) (a b : string) :
  (forall c r, b = String c r -> p c = false) ->
  (fix all (s : string) : bool :=
     match s with
     | EmptyString => true
     | String c r => p c && all r
     end) a = true ->
  span p (a ++ b) = (a, b).
Proof.
  intros Hb. induction a as [|x a IH]; intros Ha.
  - cbn. destruct b as [|c r]; [reflexivity|].
    cbn. now rewrite (Hb c r eq_refl).
  - apply andb_prop in Ha as [Hx Ha]. cbn. now rewrite Hx, IH.
Qed.

Lemma span_digits_then (a b : string) :
  all_digits a = true ->
  (forall c r, b = String c r -> is_digit c = false) ->
  span is_digit (a ++ b) = (a, b).
Proof. intros Ha Hb. now apply span_prefix. Qed.

Lemma span_blanks_then (a b : string) :
  all_space a = true ->
  (forall c r, b = String c r -> is_space c = false) ->
  span is_space (a ++ b) = (a, b).
Proof. intros Ha Hb. now apply span_prefix. Qed.

Lemma space_not_digit (c : ascii) : is_space c = true -> is_digit c = false.
Proof.
  destruct c as [[] [] [] [] [] [] [] []]; intros H;
    try discriminate H; reflexivity.
Qed.

(** Blanks and then "db": what follows the digits of a match. *)
Lemma blanks_db_head (blanks rest : string) (c : ascii) (r : string) :
  all_space blanks = true ->
  (blanks ++ "db" ++ rest)%string = String c r -> is_digit c = false.
Proof.
  intros Hb. destruct blanks as [|x blanks]; cbn; intros [= <- _].
  - reflexivity.
  - cbn in Hb. apply andb_prop in Hb as [Hx _]. now apply space_not_digit.
Qed.

Lemma digits_value_acc_uint (d : Decimal.uint) (acc : nat) :
  digits_value_acc (NilEmpty.string_of_uint d) (Z.of_nat acc)
  = Z.of_nat (Nat.of_uint_acc d acc).
Proof.
  revert acc.
  induction d as [|d IH|d IH|d IH|d IH|d IH|d IH|d IH|d IH|d IH|d IH];
    intros acc;
    cbn [NilEmpty.string_of_uint digits_value_acc Nat.of_uint_acc];
    [reflexivity|..];
    rewrite <- IH; f_equal; rewrite Nat.tail_mul_spec;
    match goal with
    | |- context [nat_of_ascii ?c] =>
        let k := eval vm_compute in (nat_of_ascii c) in
        change (nat_of_ascii c) with k
    end; lia.
Qed.

(** The digits [str] writes for a number have that number as value. *)
Lemma digits_value_of_nat (n : nat) : digits_value (of_nat n) = Z.of_nat n.
Proof.
  unfold digits_value, of_nat.
  change 0%Z with (Z.of_nat 0). rewrite digits_value_acc_uint.
  change (Nat.of_uint_acc (Nat.to_uint n) 0) with (Nat.of_uint (Nat.to_uint n)).
  now rewrite DecimalNat.Unsigned.of_to.
Qed.

Lemma of_nat_head (n : nat) :
  exists d ds, of_nat n = String d ds /\ is_digit d = true.
Proof.
  pose proof (all_digits_uint (Nat.to_uint n)) as Hall.
  pose proof (NilEmpty.usu (Nat.to_uint n)) as Hback.
  fold (of_nat n) in Hall, Hback.
  destruct (of_nat n) as [|d ds] eqn:E.
  - exfalso. cbn in Hback. injection Hback as Hnil.
    pose proof (DecimalNat.Unsigned.of_to n) as Hn.
    rewrite <- Hnil in Hn. cbn in Hn. subst n. discriminate Hnil.
  - exists d, ds. split; [reflexivity|].
    cbn in Hall. now apply andb_prop in Hall as [Hd _].
Qed.

Lemma after_number (ds tail : string) :
  all_digits ds = true ->
  ds <> "" ->
  (exists blanks rest,
      all_space blanks = true /\ tail = (blanks ++ "db" ++ rest)%string) ->
  (let '(ds0, s2) := span is_digit (ds ++ tail) in
   match ds0 with
   | EmptyString => None
   | _ =>
       let '(_, s3) := span is_space s2 in
       if starts_with "db" s3 then Some (digits_value ds0) else None
   end) = Some (digits_value ds).
Proof.
  intros Hall Hne (blanks & rest & Hb & ->).
  rewrite span_digits_then;
    [|assumption|intros c r; now apply blanks_db_head].
  destruct ds as [|d ds]; [contradiction|].
  rewrite span_blanks_then; [|assumption|now intros c r [= <- _]].
  reflexivity.
Qed.

(** The pattern matches where a number is followed by blanks and "db". *)
Lemma db_match_here_number (n : nat) (blanks rest : string) :
  all_space blanks = true ->
  db_match_here (of_nat n ++ blanks ++ "db" ++ rest) = Some (Z.of_nat n).
Proof.
  intros Hb. destruct (of_nat_head n) as (d & ds & E & Hd).
  destruct (digit_not_sign d Hd) as [Hp Hm].
  pose proof (all_digits_uint (Nat.to_uint n)) as Hall. fold (of_nat n) in Hall.
  rewrite <- digits_value_of_nat.
  set (tail := (blanks ++ "db" ++ rest)%string).
  assert (Ht : exists b r, all_space b = true /\ tail = (b ++ "db" ++ r)%string)
    by (now exists blanks, rest).
  clearbody tail. rewrite E in *. cbn [append].
  rewrite db_match_here_unsigned by assumption.
  apply (after_number (String d ds) tail Hall); [discriminate | exact Ht].
Qed.

Lemma db_match_here_signed_number (n : nat) (blanks rest : string) :
  all_space blanks = true ->
  db_match_here (String "-" (of_nat n ++ blanks ++ "db" ++ rest))
  = Some (- Z.of_nat n)%Z /\
  db_match_here (String "+" (of_nat n ++ blanks ++ "db" ++ rest))
  = Some (Z.of_nat n).
Proof.
  intros Hb.
  pose proof (all_digits_uint (Nat.to_uint n)) as Hall. fold (of_nat n) in Hall.
  destruct (of_nat_head n) as (d & ds & E & Hd).
  assert (Hne : of_nat n <> "") by (rewrite E; discriminate).
  pose proof (after_number (of_nat n) (blanks ++ "db" ++ rest) Hall Hne) as H.
  specialize (H (ex_intro _ blanks (ex_intro _ rest (conj Hb eq_refl)))).
  rewrite <- digits_value_of_nat.
  split; rewrite db_match_here_signed by (cbn; auto);
    destruct (span is_digit (of_nat n ++ blanks ++ "db" ++ rest))
      as [ds0 s2];
    destruct ds0 as [|c0 ds0]; try discriminate H;
    destruct (span is_space s2) as [sp s3];
    destruct (starts_with "db" s3); try discriminate H;
    injection H as H; cbn [Ascii.eqb Bool.eqb andb]; now rewrite H.
Qed.

(** The search walks over text without digits. *)
Lemma db_search_skip (pre tail : string) :
  no_digit pre = true ->
  no_sign pre = true \/ fst (span is_digit tail) = "" ->
  db_search (pre ++ tail) = db_search tail.
Proof.
  intros Hd Hs. induction pre as [|c pre IH]; [reflexivity|].
  cbn in Hd. apply andb_prop in Hd as [Hc Hd].
  apply negb_true_iff in Hc.
  assert (Hs' : no_sign pre = true \/ fst (span is_digit tail) = "").
  { destruct Hs as [Hs | Hs]; [left | now right].
    cbn in Hs. now apply andb_prop in Hs as [_ Hs]. }
  cbn [append db_search].
  rewrite db_match_here_nondigit; [now apply IH | assumption |].
  destruct Hs as [Hs | Hs].
  - left. cbn in Hs. apply andb_prop in Hs as [Hs _].
    apply andb_prop in Hs as [Hp Hm].
    now rewrite negb_true_iff in Hp, Hm.
  - right. destruct pre as [|x pre]; [exact Hs|].
    cbn in Hd. apply andb_prop in Hd as [Hx _].
    apply negb_true_iff in Hx. cbn. now rewrite Hx.
Qed.

(** X7. A number followed by optional blanks and "db" is what
    [_parse_volume] returns, whatever the qualitative words say, provided
    no digit comes before it: with a minus sign in front the volume is the
    negated number, with a plus sign or (after text free of signs) no sign
    it is the number itself. *)
Theorem explicit_db_is_read (pre blanks rest : string) (n : nat) :
  no_digit pre = true ->
  all_space blanks = true ->
  _parse_volume (pre ++ "-" ++ of_nat n ++ blanks ++ "db" ++ rest)
  = OpVolume (- Z.of_nat n) /\
  _parse_volume (pre ++ "+" ++ of_nat n ++ blanks ++ "db" ++ rest)
  = OpVolume (Z.of_nat n) /\
  (no_sign pre = true ->
   _parse_volume (pre ++ of_nat n ++ blanks ++ "db" ++ rest)
   = OpVolume (Z.of_nat n)).
Proof.
  intros Hd Hb.
  destruct (db_match_here_signed_number n blanks rest Hb) as [Hm Hp].
  split; [|split].
  - apply ParserFacts.parse_volume_explicit.
    rewrite db_search_skip by (auto; right; reflexivity).
    cbn [append]. destruct (of_nat n ++ _)%string eqn:E;
      cbn [db_search]; now rewrite Hm.
  - apply ParserFacts.parse_volume_explicit.
    rewrite db_search_skip by (auto; right; reflexivity).
    cbn [append]. destruct (of_nat n ++ _)%string eqn:E;
      cbn [db_search]; now rewrite Hp.
  - intros Hs. apply ParserFacts.parse_volume_explicit.
    rewrite db_search_skip by auto.
    pose proof (db_match_here_number n blanks rest Hb) as Hn.
    destruct (of_nat n ++ _)%string eqn:E; cbn [db_search]; now rewrite Hn.
Qed.

Lemma explicit_db_is_read_witness :
  _parse_volume "turn down the volume by -7 db please" = OpVolume (-7) /\
  _parse_volume "turn down the volume by 7 db please" = OpVolume 7.
Proof.
  destruct (explicit_db_is_read "turn down the volume by " " " " please" 7)
    as (Hm & _ & Hu); [reflexivity | reflexivity |].
  split; [exact Hm|]. apply Hu. reflexivity.
Defined.

End DbFacts.

(* ================================================================== *)
(** ** More on batches: replies, records, versions *)
(* ================================================================== *)

Module BatchExtras.
Import Str StrFacts PromptParser ParserFacts Session MixEngineer EngineFacts.
Import BatchClaims SlotClaims LadderFacts SimHost.

(** When the three early returns of [process_prompt] are passed. *)
Lemma entry_checks_pass (s : MixSession) (source prompt : string) :
  current_file s = Some source ->
  source <> "" ->
  operations (parse prompt) <> [] \/ requires_suno (parse prompt) = true ->
  entry_checks (Some s) prompt = inr (s, source, parse prompt).
Proof.
  intros Hcur Hne Hsome. unfold entry_checks. rewrite Hcur.
  destruct source as [|c source]; [contradiction|].
  destruct (operations (parse prompt)) as [|op ops] eqn:Eo;
    destruct (requires_suno (parse prompt)) eqn:Es; try reflexivity.
  destruct Hsome as [H | H]; [contradiction | discriminate].
Qed.

(** X9. [apply_eq] builds one equalizer band per non-zero gain, and it
    starts ffmpeg exactly when some gain is non-zero: with all three at 0
    it returns [False] and the world is as it was, otherwise its result is
    that of the one ffmpeg run over the joined bands. *)
Theorem apply_eq_runs_iff_gain {W : Type} (host : Host W) (w : W)
        (input output : string) (bass mid treble : Z) :
  (AudioProcessor.eq_filters bass mid treble = [] <->
   bass = 0%Z /\ mid = 0%Z /\ treble = 0%Z) /\
  List.length (AudioProcessor.eq_filters bass mid treble)
  = (if (bass =? 0)%Z then 0 else 1) + (if (mid =? 0)%Z then 0 else 1) +
    (if (treble =? 0)%Z then 0 else 1) /\
  AudioProcessor.apply_eq host w input output bass mid treble
  = (if (bass =? 0)%Z && (mid =? 0)%Z && (treble =? 0)%Z
     then (w, false)
     else ffmpeg_af host w input
            (join "," (AudioProcessor.eq_filters bass mid treble)) output).
Proof.
  unfold AudioProcessor.apply_eq, AudioProcessor.eq_filters.
  destruct (Z.eqb_spec bass 0), (Z.eqb_spec mid 0), (Z.eqb_spec treble 0);
    cbn [app List.length andb Nat.add];
    (split; [split; [intros H; try discriminate H; auto
                    | intros (? & ? & ?); try contradiction; reflexivity]
            | split; reflexivity]).
Qed.

Section WithHost.
Context {W : Type} (host : Host W).

(** The result lines of a batch: one per operation, one more per failed
    call. *)
Lemma process_ops_results_length (ops : list Operation) (st : Loop W) :
  List.length (l_results (process_ops host st ops))
  + count_ok (batch_calls host st ops)
  = List.length (l_results st) + 2 * List.length ops.
Proof.
  revert st. induction ops as [|op rest IH]; intros st.
  - cbn. lia.
  - rewrite process_ops_cons. specialize (IH (process_op host st op)).
    rewrite process_op_results, length_app in IH.
    unfold count_ok in *. cbn [batch_calls filter c_ok List.length].
    destruct (op_success host st op); cbn [List.length] in *; lia.
Qed.

Lemma count_ok_le (ops : list Operation) (st : Loop W) :
  count_ok (batch_calls host st ops) <= List.length ops.
Proof.
  unfold count_ok. rewrite <- (batch_calls_length host ops st).
  apply filter_length_le.
Qed.

(** The records a batch appends, in detail. *)
Lemma process_ops_records (ops : list Operation) (st : Loop W) :
  exists new,
    history (l_session (process_ops host st ops))
    = history (l_session st) ++ new /\
    map h_params new = map c_op (filter c_ok (batch_calls host st ops)) /\
    Forall (fun h => h_action h = op_type (h_params h) /\
                     h_result h = "success" /\
                     version (l_session st) < h_version h
                     <= version (l_session (process_ops host st ops))) new.
Proof.
  revert st. induction ops as [|op rest IH]; intros st.
  - exists []. cbn. rewrite app_nil_r. repeat split. constructor.
  - destruct (IH (process_op host st op)) as (new & Hh & Hp & Hall).
    rewrite process_ops_cons, Hh, process_op_history.
    pose proof (process_ops_version host rest (process_op host st op)) as Hv.
    rewrite process_op_version in Hv, Hall.
    assert (Hpos : 1 <= slots_taken op) by (destruct op; cbn; lia).
    assert (Hall' :
              Forall (fun h => h_action h = op_type (h_params h) /\
                               h_result h = "success" /\
                               version (l_session st) < h_version h
                               <= version (l_session
                                    (process_ops host (process_op host st op)
                                       rest))) new).
    { eapply Forall_impl; [|exact Hall]. cbn. intros h (? & ? & ?).
      repeat split; auto; lia. }
    cbn [batch_calls filter c_ok].
    destruct (op_success host st op).
    + exists (success_record host st op :: new).
      rewrite <- app_assoc. cbn [app map c_op]. repeat split.
      * now rewrite Hp.
      * constructor; [|exact Hall'].
        cbn. repeat split; lia.
    + exists new. rewrite app_nil_r. repeat split; assumption.
Qed.

Lemma last_ok_none (cur : string) (calls : list Call) :
  count_ok calls = 0 -> last_ok cur calls = cur.
Proof.
  unfold count_ok. induction calls as [|c rest IH]; intros H.
  - reflexivity.
  - cbn in *. destruct (c_ok c); [discriminate|]. now apply IH.
Qed.

Lemma batch_slots_length (ops : list Operation) (st : Loop W) :
  List.length (batch_slots host st ops) = list_sum (map slots_taken ops).
Proof.
  revert st. induction ops as [|op rest IH]; intros st.
  - reflexivity.
  - cbn [batch_slots map list_sum fold_right].
    change (fold_right Nat.add 0 (map slots_taken rest))
      with (list_sum (map slots_taken rest)).
    rewrite length_app, IH. f_equal.
    unfold op_slots, get_versioned_path. now destruct op.
Qed.

End WithHost.

Lemma slots_taken_one_master (ops : list Operation) :
  NoDup (map op_type ops) ->
  list_sum (map slots_taken ops) <= List.length ops + 1 /\
  (~ In "master" (map op_type ops) ->
   list_sum (map slots_taken ops) = List.length ops).
Proof.
  induction ops as [|op rest IH]; intros Hnd.
  - cbn. split; [lia|reflexivity].
  - cbn [map] in Hnd. apply NoDup_cons_iff in Hnd as [Hnin Hnd].
    destruct (IH Hnd) as [Hle Heq].
    cbn [map list_sum fold_right List.length].
    change (fold_right Nat.add 0 (map slots_taken rest))
      with (list_sum (map slots_taken rest)).
    split.
    + destruct op; cbn [slots_taken]; try lia.
      cbn [op_type] in Hnin. rewrite (Heq Hnin). lia.
    + intros Hno. rewrite Heq by (intros H; apply Hno; now right).
      destruct op; cbn [slots_taken]; try lia.
      exfalso. apply Hno. now left.
Qed.

(** X8. A prompt in which only a style keyword is recognised is not
    sent to the suggestions: [process_prompt] runs an empty batch, leaves
    the session as it was (version, history and current file), saves it,
    and answers with the three style lines, the second of which carries the
    prompt exactly as typed. *)
Theorem style_only_prompt {W : Type} (host : Host W) (w : W)
        (s : MixSession) (source t : string) :
  operations (parse t) = [] ->
  requires_suno (parse t) = true ->
  current_file s = Some source ->
  source <> "" ->
  process_prompt host w (Some s) t
  = (save_session host w s, Some s,
     Applied 0 [LineStyleRequested; LineStylePrompt t; LineStyleHint]
             (version s) (current_file s)).
Proof.
  intros Hops Hsuno Hcur Hne.
  assert (Hsp : style_prompt (parse t) = Some t).
  { unfold parse in Hsuno |- *. cbn in Hsuno |- *. now rewrite Hsuno. }
  unfold process_prompt.
  rewrite (entry_checks_pass s source t Hcur Hne) by (now right).
  cbv zeta. rewrite Hops, Hsuno, Hsp. reflexivity.
Qed.

Lemma style_only_prompt_witness :
  process_prompt healthy [] (Some fresh) "Something in the STYLE of jazz"
  = ([], Some fresh,
     Applied 0 [LineStyleRequested;
                LineStylePrompt "Something in the STYLE of jazz";
                LineStyleHint] 0 (Some "song.wav")).
Proof.
  apply (style_only_prompt healthy [] fresh "song.wav"
           "Something in the STYLE of jazz");
    [vm_compute; reflexivity | vm_compute; reflexivity | reflexivity
    | discriminate].
Defined.

(** X14. The reply to a prompt that reaches the loop names the number
    of parsed operations, failed ones included, together with the version
    and current file of the session as the batch left it.  Its result
    lines are one per operation, one more per failed call, and three more
    when a style keyword was found. *)
Theorem reply_accounting {W : Type} (host : Host W) (w : W)
        (s : MixSession) (source prompt : string) :
  current_file s = Some source ->
  source <> "" ->
  operations (parse prompt) <> [] \/ requires_suno (parse prompt) = true ->
  exists w' s' lines,
    process_prompt host w (Some s) prompt
    = (w', Some s',
       Applied (List.length (operations (parse prompt))) lines
               (version s') (current_file s')) /\
    List.length lines + count_ok (prompt_calls host w (Some s) prompt)
    = 2 * List.length (operations (parse prompt))
      + (if requires_suno (parse prompt) then 3 else 0).
Proof.
  intros Hcur Hne Hsome.
  pose proof (entry_checks_pass s source prompt Hcur Hne Hsome) as E.
  unfold process_prompt, prompt_calls. rewrite E. cbv zeta.
  set (st := mkLoop w s source []).
  set (ops := operations (parse prompt)).
  do 3 eexists. split; [reflexivity|].
  pose proof (process_ops_results_length host ops st) as Hlen.
  change (List.length (l_results st)) with 0 in Hlen.
  rewrite length_app.
  destruct (requires_suno (parse prompt)); cbn [List.length]; lia.
Qed.

Lemma reply_accounting_witness :
  exists w' s' lines,
    process_prompt no_compressor [] (Some fresh)
      "more bass, compress and reverb please"
    = (w', Some s', Applied 3 lines (version s') (current_file s')) /\
    List.length lines = 4.
Proof.
  destruct (reply_accounting no_compressor [] fresh "song.wav"
              "more bass, compress and reverb please")
    as (w' & s' & lines & Hr & Hl);
    [reflexivity | discriminate | left; vm_compute; discriminate |].
  exists w', s', lines. split; [exact Hr|].
  change (count_ok _) with 2 in Hl.
  change (List.length (operations _)) with 3 in Hl.
  change (requires_suno _) with false in Hl. cbv iota in Hl. lia.
Defined.

(** X15. The records a [process_prompt] call appends to the history are
    exactly its successful operations, in the order they ran: each record
    carries the parameters of its operation and the tag of that operation
    as action, and a version number above the version before the call and
    at most the version after it. *)
Theorem history_lists_successes {W : Type} (host : Host W) (w : W)
        (s : MixSession) (prompt : string) :
  exists s',
    snd (fst (process_prompt host w (Some s) prompt)) = Some s' /\
    map h_params (appended s s')
    = map c_op (filter c_ok (prompt_calls host w (Some s) prompt)) /\
    Forall (fun h => h_action h = op_type (h_params h) /\
                     version s < h_version h <= version s')
           (appended s s').
Proof.
  rewrite process_prompt_session. unfold prompt_calls.
  destruct (entry_checks (Some s) prompt) as [r | [[s0 current] parsed]] eqn:E.
  - exists s. unfold appended. rewrite skipn_all. cbn.
    repeat split. constructor.
  - apply entry_checks_inr in E as (-> & _ & ->).
    set (st := mkLoop w s current []).
    destruct (process_ops_records host (operations (parse prompt)) st)
      as (new & Hh & Hp & Hall).
    exists (l_session (process_ops host st (operations (parse prompt)))).
    pose proof (appended_app s _ new Hh) as Ha. rewrite Ha.
    split; [reflexivity|]. split; [exact Hp|].
    eapply Forall_impl; [|exact Hall]. cbn. intros h (? & _ & ?). now split.
Qed.

(** X16. A [process_prompt] call none of whose engine calls succeeds
    leaves the history and the current file of the session exactly as they
    were, in the same directory. *)
Theorem failed_batch_keeps_state {W : Type} (host : Host W) (w : W)
        (s : MixSession) (prompt : string) :
  count_ok (prompt_calls host w (Some s) prompt) = 0 ->
  exists s',
    snd (fst (process_prompt host w (Some s) prompt)) = Some s' /\
    history s' = history s /\
    current_file s' = current_file s /\
    session_dir s' = session_dir s.
Proof.
  rewrite process_prompt_session. unfold prompt_calls.
  destruct (entry_checks (Some s) prompt) as [r | [[s0 current] parsed]] eqn:E.
  - intros _. exists s. repeat split.
  - apply entry_checks_inr in E as (-> & Hcur & ->). intros Hnone.
    set (st := mkLoop w s current []) in *.
    set (ops := operations (parse prompt)) in *.
    exists (l_session (process_ops host st ops)).
    destruct (process_ops_history host ops st) as (new & Hh & Hlen & _).
    rewrite Hnone in Hlen. apply length_zero_iff_nil in Hlen. subst new.
    rewrite app_nil_r in Hh.
    split; [reflexivity|]. split; [exact Hh|]. split.
    + rewrite (batch_current_file host ops st Hcur), batch_last_ok.
      now rewrite (last_ok_none _ _ Hnone).
    + apply process_ops_session_dir.
Qed.

Lemma failed_batch_keeps_state_witness :
  exists s',
    snd (fst (process_prompt healthy [] (Some fresh) "fix the frequency"))
    = Some s' /\
    history s' = [] /\ current_file s' = Some "song.wav".
Proof.
  destruct (failed_batch_keeps_state healthy [] fresh "fix the frequency")
    as (s' & Hs & Hh & Hc & _); [vm_compute; reflexivity|].
  exists s'. split; [exact Hs|]. split; [exact Hh | exact Hc].
Defined.

(** X19. A [process_prompt] call advances [version] by exactly the
    number of paths [get_versioned_path] handed out during it: one per
    attempted operation and a second one for a Master operation.  As a
    prompt holds at most one Master operation, that is the number of
    attempted operations or one more. *)
Theorem version_counts_slots {W : Type} (host : Host W) (w : W)
        (s : MixSession) (prompt : string) :
  exists s',
    snd (fst (process_prompt host w (Some s) prompt)) = Some s' /\
    version s'
    = version s + List.length (prompt_slots host w (Some s) prompt) /\
    List.length (prompt_calls host w (Some s) prompt)
    <= List.length (prompt_slots host w (Some s) prompt)
    <= List.length (prompt_calls host w (Some s) prompt) + 1.
Proof.
  rewrite process_prompt_session. unfold prompt_calls, prompt_slots.
  destruct (entry_checks (Some s) prompt) as [r | [[s0 current] parsed]] eqn:E.
  - exists s. cbn. repeat split; lia.
  - apply entry_checks_inr in E as (-> & _ & ->).
    set (st := mkLoop w s current []).
    exists (l_session (process_ops host st (operations (parse prompt)))).
    rewrite process_ops_version, batch_slots_length, batch_calls_length.
    destruct (slots_taken_one_master (operations (parse prompt))
                (parse_types_nodup prompt)) as [Hle _].
    split; [reflexivity|]. split; [reflexivity|]. split; [|exact Hle].
    clear. induction (operations (parse prompt)) as [|op rest IH].
    + cbn. lia.
    + cbn [map list_sum fold_right List.length].
      change (fold_right Nat.add 0 (map slots_taken rest))
        with (list_sum (map slots_taken rest)).
      destruct op; cbn [slots_taken]; lia.
Qed.

End BatchExtras.

(* ================================================================== *)
(** ** Undo, set_source and runs of commands *)
(* ================================================================== *)

Module SessionExtras.
Import Str StrFacts PromptParser ParserFacts Session MixEngineer EngineFacts.
Import BatchClaims SlotClaims NameFacts Run SimHost.

Section WithHost.
Context {W : Type} (host : Host W).

Lemma process_ops_name (ops : list Operation) (st : Loop W) :
  name (l_session (process_ops host st ops)) = name (l_session st).
Proof.
  revert st. induction ops as [|op rest IH]; intros st.
  - reflexivity.
  - rewrite process_ops_cons, IH, process_op_spec.
    now destruct (op_success host st op).
Qed.

(** What [undo] can do to an active session. *)
Lemma undo_cases (w : W) (s : MixSession) :
  undo host w (Some s) = (w, Some s, NothingToUndo) \/
  undo host w (Some s) = (w, Some s, CouldNotFindPrevious) \/
  exists f,
    2 <= version s /\ f <> "" /\ path_exists host w f = true /\
    undo host w (Some s)
    = (save_session host w
         (with_version (with_current_file s (Some f)) (version s - 1)),
       Some (with_version (with_current_file s (Some f)) (version s - 1)),
       Reverted (version s - 1)).
Proof.
  unfold undo. destruct (Nat.ltb_spec (version s) 2) as [Hlt | Hge].
  - now left.
  - destruct (hd_error _) as [f|]; [|right; now left].
    destruct (String.eqb_spec f "") as [-> | Hne]; cbn [negb andb].
    + right. now left.
    + destruct (path_exists host w f) eqn:Hex; [|right; now left].
      right. right. exists f. repeat split; assumption.
Qed.

Lemma step_history (w : W) (s : MixSession) (c : Step) :
  exists s1 new,
    snd (step host w (Some s) c) = Some s1 /\
    history s1 = history s ++ new /\
    Forall (fun h => h_result h = "success") new /\
    session_dir s1 = session_dir s /\
    name s1 = name s.
Proof.
  destruct c as [prompt | | file_path]; cbn [step].
  - rewrite process_prompt_session.
    destruct (entry_checks (Some s) prompt)
      as [r | [[s0 current] parsed]] eqn:E.
    + exists s, []. rewrite app_nil_r. repeat split. constructor.
    + apply entry_checks_inr in E as (-> & _ & ->).
      set (st := mkLoop w s current []).
      destruct (process_ops_history host (operations (parse prompt)) st)
        as (new & Hh & _ & Hall).
      exists (l_session (process_ops host st (operations (parse prompt)))), new.
      split; [reflexivity|]. split; [exact Hh|]. split; [exact Hall|].
      split; [apply process_ops_session_dir | apply process_ops_name].
  - destruct (undo_cases w s) as [E | [E | (f & _ & _ & _ & E)]];
      rewrite E; cbn [fst snd].
    + exists s, []. rewrite app_nil_r. repeat split. constructor.
    + exists s, []. rewrite app_nil_r. repeat split. constructor.
    + eexists _, []. split; [reflexivity|]. cbn. rewrite app_nil_r.
      repeat split. constructor.
  - unfold set_source, Session.set_source.
    destruct (path_exists host w file_path); cbn [fst snd].
    + eexists _, []. split; [reflexivity|]. cbn. rewrite app_nil_r.
      repeat split. constructor.
    + exists s, []. rewrite app_nil_r. repeat split. constructor.
Qed.

(** The first engine call of a prompt reads the current file of the
    session and writes to the slot after its version. *)
Lemma prompt_calls_head (w : W) (s : MixSession) (prompt : string)
      (c : Call) :
  hd_error (prompt_calls host w (Some s) prompt) = Some c ->
  exists cur,
    current_file s = Some cur /\
    c_input c = cur /\
    c_output c
    = versioned_name (session_dir s) (S (version s))
        ("_" ++ op_type (c_op c))%string.
Proof.
  unfold prompt_calls.
  destruct (entry_checks (Some s) prompt)
    as [r | [[s0 current] parsed]] eqn:E; [discriminate|].
  apply entry_checks_inr in E as (-> & Hcur & ->).
  destruct (operations (parse prompt)) as [|op rest]; [discriminate|].
  cbn [batch_calls hd_error]. intros [= <-]. exists current.
  cbn [c_input c_output c_op l_current]. unfold op_output.
  rewrite reserve_spec. repeat split. exact Hcur.
Qed.

End WithHost.

(** X10. Over any run of mixing prompts, undos and source changes on an
    active session, the history only grows at its end: the history before
    the run is a prefix of the history after it, everything added is a
    "success" record, and the session keeps its name and directory. *)
Theorem history_append_only {W : Type} (host : Host W)
        (cmds : list Step) (w : W) (s : MixSession) :
  exists s' new,
    snd (run host w (Some s) cmds) = Some s' /\
    history s' = history s ++ new /\
    Forall (fun h => h_result h = "success") new /\
    session_dir s' = session_dir s /\
    name s' = name s.
Proof.
  revert w s. induction cmds as [|c rest IH]; intros w s.
  - exists s, []. cbn. rewrite app_nil_r. repeat split. constructor.
  - destruct (step_history host w s c)
      as (s1 & new1 & Hs1 & Hh1 & Ha1 & Hd1 & Hn1).
    cbn [run]. destruct (step host w (Some s) c) as [w1 session1].
    cbn [snd] in Hs1. subst session1.
    destruct (IH w1 s1) as (s' & new & Hs' & Hh & Ha & Hd & Hn).
    exists s', (new1 ++ new). split; [exact Hs'|].
    rewrite Hh, Hh1, app_assoc, Hd, Hd1, Hn, Hn1.
    repeat split. apply Forall_app. now split.
Qed.

(** X11. [undo] on an active session never touches the history, the
    name or the directory.  Either it gives up, leaving world and session
    exactly as they were, or it lowers [version] by one to a value that is
    at least 1 and makes current a file that exists. *)
Theorem undo_moves_one_step {W : Type} (host : Host W) (w : W)
        (s : MixSession) :
  exists s',
    snd (fst (undo host w (Some s))) = Some s' /\
    history s' = history s /\
    session_dir s' = session_dir s /\
    name s' = name s /\
    ((s' = s /\ fst (fst (undo host w (Some s))) = w /\
      (snd (undo host w (Some s)) = NothingToUndo \/
       snd (undo host w (Some s)) = CouldNotFindPrevious)) \/
     (snd (undo host w (Some s)) = Reverted (version s') /\
      S (version s') = version s /\
      1 <= version s' /\
      exists f,
        current_file s' = Some f /\ f <> "" /\
        path_exists host w f = true)).
Proof.
  destruct (undo_cases host w s) as [E | [E | (f & Hge & Hne & Hex & E)]];
    rewrite E; cbn [fst snd].
  - exists s. repeat split. left. repeat split. now left.
  - exists s. repeat split. left. repeat split. now right.
  - eexists. split; [reflexivity|]. cbn. repeat split. right.
    repeat split; try lia. now exists f.
Qed.

(** X12. [MixEngineer.set_source] refuses a path that does not exist and
    then changes nothing.  On a path that exists it makes it the current
    file and resets [version] to 0 while keeping the history, so the first
    engine call of the next prompt reads the new source and writes to the
    slot numbered 001, whatever the version was before. *)
Theorem set_source_restarts_numbering {W : Type} (host : Host W) (w : W)
        (s : MixSession) (file_path : string) :
  (path_exists host w file_path = false ->
   set_source host w s file_path = (w, s, false)) /\
  (path_exists host w file_path = true ->
   exists w1 s1,
     set_source host w s file_path = (w1, s1, true) /\
     version s1 = 0 /\
     current_file s1 = Some file_path /\
     history s1 = history s /\
     forall w2 prompt c,
       hd_error (prompt_calls host w2 (Some s1) prompt) = Some c ->
       c_input c = file_path /\
       c_output c
       = versioned_name (session_dir s) 1 ("_" ++ op_type (c_op c))%string).
Proof.
  unfold set_source, Session.set_source. split; intros Hex; rewrite Hex.
  - reflexivity.
  - eexists _, _. split; [reflexivity|].
    cbn [version current_file history with_version with_current_file].
    split; [reflexivity|]. split; [reflexivity|]. split; [reflexivity|].
    intros w2 prompt c Hc.
    apply prompt_calls_head in Hc as (cur & Hcur & Hin & Hout).
    cbn [current_file with_version with_current_file] in Hcur.
    injection Hcur as <-. split; [exact Hin|].
    rewrite Hout. reflexivity.
Qed.

Lemma set_source_restarts_numbering_witness :
  let old := with_version fresh 7 in
  exists w1 s1,
    set_source healthy ["take2.wav"] old "take2.wav" = (w1, s1, true) /\
    version s1 = 0 /\
    map c_output (prompt_calls healthy w1 (Some s1) "more bass")
    = ["sessions/demo/v001_eq.wav"].
Proof.
  intros old.
  destruct (set_source_restarts_numbering healthy ["take2.wav"] old
              "take2.wav") as (_ & H).
  destruct (H eq_refl) as (w1 & s1 & Hs & Hv & _ & _ & Hc).
  exists w1, s1. split; [exact Hs|]. split; [exact Hv|].
  injection Hs as <- <-. vm_compute. reflexivity.
Defined.

(** X17. The output path of an iteration determines its slot: within
    one session directory two iterations are handed the same path only if
    they start from the same version and run operations of the same
    kind. *)
Theorem output_path_determines_slot (s1 s2 : MixSession)
        (op1 op2 : Operation) :
  session_dir s1 = session_dir s2 ->
  snd (reserve s1 op1) = snd (reserve s2 op2) ->
  version s1 = version s2 /\ op_type op1 = op_type op2.
Proof.
  intros Hdir. rewrite !reserve_spec. cbn [snd]. rewrite Hdir. intros H.
  assert (Hv : S (version s1) = S (version s2))
    by (cbn [append] in H; now apply versioned_name_inj in H).
  split; [now injection Hv|].
  rewrite Hv in H. unfold versioned_name in H.
  apply append_inv_head in H. cbn [append] in H. injection H as H.
  apply append_inv_head in H.
  destruct op1, op2; cbn in H; try discriminate H; reflexivity.
Qed.

Lemma output_path_determines_slot_witness :
  version (with_version fresh 3) = version (with_version fresh 3) /\
  op_type (OpEq 4 0 0) = op_type (OpEq 0 0 3).
Proof.
  apply (output_path_determines_slot (with_version fresh 3)
           (with_version fresh 3) (OpEq 4 0 0) (OpEq 0 0 3));
    reflexivity.
Defined.

End SessionExtras.

(* ================================================================== *)
(** ** The interactive loop and export *)
(* ================================================================== *)

Module InteractiveExtras.
Import Str StrMore StrFacts Interactive Exporter SimHost.

Lemma ends_with_refl (s : string) : ends_with s s = true.
Proof. destruct s; cbn [ends_with]; now rewrite String.eqb_refl. Qed.

Lemma ends_with_app (a suf : string) : ends_with suf (a ++ suf) = true.
Proof.
  induction a as [|c a IH].
  - apply ends_with_refl.
  - cbn [append ends_with]. rewrite IH. apply orb_true_r.
Qed.

(** What [rstrip] returns is empty or ends in a non-blank; such a string
    is left alone by [rstrip]. *)
Lemma rstrip_idempotent (s : string) : rstrip (rstrip s) = rstrip s.
Proof.
  induction s as [|c r IH]; [reflexivity|].
  cbn [rstrip]. destruct (rstrip r) as [|x r'] eqn:E.
  - destruct (is_space c) eqn:Hc; [reflexivity|].
    cbn. now rewrite Hc.
  - cbn [rstrip]. cbn [rstrip] in IH. now rewrite IH.
Qed.

Lemma rstrip_fixed_tail (c : ascii) (r : string) :
  rstrip (String c r) = String c r -> rstrip r = r.
Proof.
  cbn [rstrip]. destruct (rstrip r) as [|x r'] eqn:E.
  - destruct (is_space c); [discriminate|]. now intros [= <-].
  - now intros [= <-].
Qed.

Lemma rstrip_lstrip_fixed (s : string) :
  rstrip s = s -> rstrip (lstrip s) = lstrip s.
Proof.
  induction s as [|c r IH]; intros H; [reflexivity|].
  cbn [lstrip]. destruct (is_space c); [|exact H].
  apply IH. now apply rstrip_fixed_tail in H.
Qed.

Lemma lstrip_idempotent (s : string) : lstrip (lstrip s) = lstrip s.
Proof.
  induction s as [|c r IH]; [reflexivity|].
  cbn [lstrip]. destruct (is_space c) eqn:Hc; [exact IH|].
  cbn [lstrip]. now rewrite Hc.
Qed.

Lemma strip_idempotent (s : string) : strip (strip s) = strip s.
Proof.
  unfold strip.
  rewrite (rstrip_lstrip_fixed (rstrip s)) by apply rstrip_idempotent.
  apply lstrip_idempotent.
Qed.

(** X13. The name an export is written under always ends in ".mp3": a
    name that already does is kept as it is, any other gets the extension
    appended, and doing it twice changes nothing more.  Every [export]
    command of the interactive loop therefore carries such a name. *)
Theorem export_name_ends_in_mp3 (name line : string) :
  ends_with ".mp3" (export_name name) = true /\
  export_name (export_name name) = export_name name /\
  (forall n, dispatch line = Export n -> ends_with ".mp3" n = true).
Proof.
  assert (Hend : forall n, ends_with ".mp3" (export_name n) = true).
  { intros n. unfold export_name.
    destruct (ends_with ".mp3" n) eqn:E; [exact E | apply ends_with_app]. }
  split; [apply Hend|]. split.
  - unfold export_name at 1. now rewrite Hend.
  - intros n. unfold dispatch.
    destruct (strip line) as [|c cmd]; [discriminate|].
    repeat match goal with
           | |- context [if ?b then _ else _] => destruct b
           end; try discriminate.
    intros [= <-]. apply Hend.
Qed.

Lemma export_name_ends_in_mp3_witness :
  dispatch "  EXPORT Final Mix " = Export "Final Mix.mp3" /\
  ends_with ".mp3" "Final Mix.mp3" = true.
Proof.
  assert (E : dispatch "  EXPORT Final Mix " = Export "Final Mix.mp3")
    by (vm_compute; reflexivity).
  split; [exact E|].
  destruct (export_name_ends_in_mp3 "Final Mix" "  EXPORT Final Mix ")
    as (_ & _ & H).
  apply H. exact E.
Defined.

(** X18. The interactive loop looks at a line through [strip] only, so
    blanks around a line never change what is done with it.  A line is
    handed on as a mixing prompt only in stripped form, when it is not
    empty and is none of the bare command words. *)
Theorem dispatch_sees_stripped_line (line : string) :
  dispatch (strip line) = dispatch line /\
  (forall p,
      dispatch line = MixPrompt p ->
      p = strip line /\ p <> "" /\
      ~ In (lower p) ["quit"; "exit"; "q"; "help"; "history"; "undo"]).
Proof.
  split.
  - unfold dispatch. now rewrite strip_idempotent.
  - intros p. unfold dispatch.
    destruct (strip line) as [|c cmd] eqn:E; [discriminate|].
    destruct (existsb _ _) eqn:Hq; [discriminate|].
    destruct (String.eqb_spec (lower (String c cmd)) "help");
      [discriminate|].
    destruct (starts_with "session " _); [discriminate|].
    destruct (starts_with "source " _); [discriminate|].
    destruct (String.eqb_spec (lower (String c cmd)) "history");
      [discriminate|].
    destruct (String.eqb_spec (lower (String c cmd)) "undo");
      [discriminate|].
    destruct (starts_with "export " _); [discriminate|].
    intros [= <-]. split; [reflexivity|]. split; [discriminate|].
    cbn [existsb] in Hq. rewrite !orb_false_r in Hq.
    apply orb_false_elim in Hq as [Hq1 Hq].
    apply orb_false_elim in Hq as [Hq2 Hq3].
    apply String.eqb_neq in Hq1, Hq2, Hq3.
    cbn [In]. intuition congruence.
Qed.

Lemma dispatch_sees_stripped_line_witness :
  dispatch "  make it Brighter  " = MixPrompt "make it Brighter" /\
  "make it Brighter" = strip "  make it Brighter  ".
Proof.
  assert (E : dispatch "  make it Brighter  " = MixPrompt "make it Brighter")
    by (vm_compute; reflexivity).
  split; [exact E|].
  destruct (dispatch_sees_stripped_line "  make it Brighter  ") as (_ & H).
  destruct (H "make it Brighter" E) as (Hp & _). exact Hp.
Defined.

(** X20. [export] refuses only when there is no session or no current
    file, and then leaves the world alone.  Otherwise it reports the
    export under the processed path of the given name whether the
    encoding run succeeded or not: two encoders that agree on the path get
    the same reply. *)
Theorem export_ignores_encoder_outcome {W : Type} (enc1 enc2 : Encoder W)
        (w : W) (session : option MixSession) (filename : string) :
  processed_path enc1 filename = processed_path enc2 filename ->
  snd (export enc1 w session filename)
  = snd (export enc2 w session filename) /\
  (snd (export enc1 w session filename) = NoFileToExport ->
   fst (export enc1 w session filename) = w) /\
  (forall s f,
      session = Some s -> current_file s = Some f -> f <> "" ->
      snd (export enc1 w session filename)
      = ExportedTo (processed_path enc1 filename)).
Proof.
  intros Hpath. unfold export.
  destruct session as [s|].
  2:{ split; [reflexivity|]. split; [reflexivity|]. discriminate. }
  destruct (current_file s) as [[|c f]|] eqn:Hcur.
  - split; [reflexivity|]. split; [reflexivity|].
    intros s0 f0 [= <-] Hf Hne. rewrite Hcur in Hf.
    injection Hf as <-. contradiction.
  - rewrite Hpath.
    destruct (ffmpeg_mp3 enc1 w _ _) as [w1 ok1].
    destruct (ffmpeg_mp3 enc2 w _ _) as [w2 ok2].
    cbn [fst snd]. split; [reflexivity|]. split; [discriminate|].
    intros s0 f0 _ _ _. reflexivity.
  - split; [reflexivity|]. split; [reflexivity|].
    intros s0 f0 [= <-] Hf. rewrite Hcur in Hf. discriminate.
Qed.

Lemma export_ignores_encoder_outcome_witness :
  let ok := mkEncoder World (fun n => ("processed/" ++ n)%string)
                      (fun w _ o => (o :: w, true)) in
  let broken := mkEncoder World (fun n => ("processed/" ++ n)%string)
                          (fun w _ _ => (w, false)) in
  snd (export broken [] (Some fresh) "final.mp3")
  = snd (export ok [] (Some fresh) "final.mp3") /\
  snd (export broken [] (Some fresh) "final.mp3")
  = ExportedTo "processed/final.mp3".
Proof.
  intros ok broken.
  destruct (export_ignores_encoder_outcome broken ok [] (Some fresh)
              "final.mp3") as (Hsame & _ & Hrep); [reflexivity|].
  split; [exact Hsame|].
  apply (Hrep fresh "song.wav"); [reflexivity | reflexivity | discriminate].
Defined.

End InteractiveExtras.

(* ================================================================== *)
(** ** Longer texts, longer runs *)
(* ================================================================== *)

Module GrowthExtras.
Import Str StrFacts PromptParser ParserFacts Session MixEngineer EngineFacts.
Import BatchClaims LadderFacts SessionExtras Run SimHost.

Lemma lower_app (a b : string) :
  lower (a ++ b) = (lower a ++ lower b)%string.
Proof.
  induction a as [|c a IH]; cbn; [reflexivity | now rewrite IH].
Qed.

Lemma starts_with_app_r (kw s b : string) :
  starts_with kw s = true -> starts_with kw (s ++ b) = true.
Proof.
  revert s. induction kw as [|k kw IH]; intros s H; [reflexivity|].
  destruct s as [|c s]; [discriminate|].
  cbn in *. apply andb_prop in H as [Hc H]. now rewrite Hc, IH.
Qed.

Lemma contains_app_after (kw s b : string) :
  contains kw s = true -> contains kw (s ++ b) = true.
Proof.
  induction s as [|c s IH]; intros H.
  - cbn in H. rewrite orb_false_r in H.
    destruct kw; [|discriminate]. now destruct b.
  - cbn [contains] in H. apply orb_prop in H as [H | H].
    + apply starts_with_contains. now apply starts_with_app_r.
    + cbn [append]. apply contains_tail. now apply IH.
Qed.

Lemma contains_app_before (kw a s : string) :
  contains kw s = true -> contains kw (a ++ s) = true.
Proof.
  intros H. induction a as [|c a IH]; [exact H|].
  cbn [append]. now apply contains_tail.
Qed.

Lemma any_in_context (kws : list string) (a s b : string) :
  any_in kws s = true -> any_in kws (a ++ s ++ b) = true.
Proof.
  unfold any_in. rewrite !existsb_exists. intros (kw & Hin & Hc).
  exists kw. split; [exact Hin|].
  now apply contains_app_before, contains_app_after.
Qed.

(** X21. Adding text around a prompt never removes a kind of operation
    from its parse: every family that fires on a text fires on any longer
    text that contains it, and a style request stays a style request. *)
Theorem families_are_monotone (a t b : string) :
  incl (map op_type (operations (parse t)))
       (map op_type (operations (parse (a ++ t ++ b)))) /\
  (requires_suno (parse t) = true ->
   requires_suno (parse (a ++ t ++ b)) = true).
Proof.
  split.
  - rewrite !parse_types_in_family_order. intros ty Hin.
    apply filter_In in Hin as [Hin Hf]. apply filter_In. split; [exact Hin|].
    unfold family_fires in *. rewrite !lower_app.
    now apply any_in_context.
  - unfold parse. cbn [requires_suno]. rewrite !lower_app.
    apply any_in_context.
Qed.

Lemma families_are_monotone_witness :
  requires_suno (parse "please reimagine this, thanks") = true /\
  In "reverb"
     (map op_type (operations (parse "a big HALL sound, please"))).
Proof.
  destruct (families_are_monotone "please " "reimagine" " this, thanks")
    as [_ Hs].
  destruct (families_are_monotone "a big " "HALL" " sound, please")
    as [Hi _].
  split.
  - apply Hs. vm_compute. reflexivity.
  - apply Hi. vm_compute. now left.
Defined.

Section WithHost.
Context {W : Type} (host : Host W).

(** X22. After [process_prompt] the current file of the session is the
    output of the last engine call of the batch that succeeded, and the
    file it had before if none did (or if the prompt never reached the
    loop). *)
Theorem current_file_tracks_last_success (w : W) (s : MixSession)
        (prompt : string) :
  exists s',
    snd (fst (process_prompt host w (Some s) prompt)) = Some s' /\
    current_file s'
    = option_map
        (fun cur => last_ok cur (prompt_calls host w (Some s) prompt))
        (current_file s).
Proof.
  rewrite process_prompt_session. unfold prompt_calls.
  destruct (entry_checks (Some s) prompt) as [r | [[s0 current] parsed]] eqn:E.
  - exists s. split; [reflexivity|]. now destruct (current_file s).
  - apply entry_checks_inr in E as (-> & Hcur & ->).
    set (st := mkLoop w s current []).
    exists (l_session (process_ops host st (operations (parse prompt)))).
    split; [reflexivity|].
    rewrite (batch_current_file host _ st Hcur), batch_last_ok, Hcur.
    reflexivity.
Qed.

(** X23. No run of undos brings a session back to version 0: from a
    version of at least 1 every run of undos ends at a version of at
    least 1, never above the version it started from, with the history
    untouched. *)
Theorem undo_never_reaches_source (cmds : list Step) (w : W)
        (s : MixSession) :
  Forall (fun c => c = DoUndo) cmds ->
  exists s',
    snd (run host w (Some s) cmds) = Some s' /\
    version s' <= version s /\
    (1 <= version s -> 1 <= version s') /\
    history s' = history s.
Proof.
  revert w s. induction cmds as [|c rest IH]; intros w s Hall.
  - exists s. repeat split; auto.
  - apply Forall_cons_iff in Hall as [-> Hall]. cbn [run step].
    destruct (undo_cases host w s) as [E | [E | (f & Hge & _ & _ & E)]];
      rewrite E; cbn [fst].
    + apply IH, Hall.
    + apply IH, Hall.
    + destruct (IH (save_session host w
                      (with_version (with_current_file s (Some f))
                         (version s - 1)))
                   (with_version (with_current_file s (Some f))
                      (version s - 1)) Hall)
        as (s' & Hs' & Hle & Hpos & Hh).
      cbn [version history with_version with_current_file] in Hle, Hpos, Hh.
      exists s'. split; [exact Hs'|]. split; [lia|]. split; [|exact Hh].
      intros _. apply Hpos. lia.
Qed.

End WithHost.

Lemma undo_never_reaches_source_witness :
  let w := ["sessions/demo/v003_eq.wav"; "sessions/demo/v002_eq.wav";
            "sessions/demo/v001_eq.wav"] in
  let s := with_version
             (with_current_file fresh (Some "sessions/demo/v003_eq.wav")) 3 in
  option_map version (snd (run healthy w (Some s) [DoUndo; DoUndo; DoUndo]))
  = Some 1 /\
  exists s',
    snd (run healthy w (Some s) [DoUndo; DoUndo; DoUndo]) = Some s' /\
    1 <= version s'.
Proof.
  intros w s. split; [vm_compute; reflexivity|].
  destruct (undo_never_reaches_source healthy [DoUndo; DoUndo; DoUndo] w s)
    as (s' & Hs & _ & Hpos & _).
  - repeat constructor.
  - exists s'. split; [exact Hs|]. apply Hpos. cbn. lia.
Defined.

End GrowthExtras.

(* ================================================================== *)
(** ** The mastering chain *)
(* ================================================================== *)

Module MasterClaims.
Import Str StrFacts PromptParser ParserFacts Session MixEngineer EngineFacts.
Import BatchClaims BatchExtras SimHost LogHost.

(** With a mastering keyword in the text, the Master operation closes the
    operation list, after whatever the other five families produced. *)
Lemma family_ops_master_last (p : string) :
  any_in MASTER_KEYWORDS p = true ->
  exists before,
    family_ops p = before ++ [OpMaster] /\ ~ In OpMaster before.
Proof.
  intros H. unfold family_ops. rewrite H.
  exists ((if any_in EQ_KEYWORDS p then [_parse_eq p] else []) ++
          (if any_in COMPRESSION_KEYWORDS p
           then [_parse_compression p] else []) ++
          (if any_in REVERB_KEYWORDS p then [_parse_reverb p] else []) ++
          (if any_in VOLUME_KEYWORDS p then [_parse_volume p] else []) ++
          (if any_in WIDTH_KEYWORDS p then [_parse_width p] else [])).
  split.
  - now rewrite <- !app_assoc.
  - rewrite !in_app_iff.
    assert (Hty : forall op, op_type op <> "master" -> OpMaster <> op)
      by (intros op Hop <-; now apply Hop).
    intros [Hin | [Hin | [Hin | [Hin | Hin]]]];
      match type of Hin with
      | In _ (if ?c then _ else _) => destruct c
      end; cbn in Hin; try contradiction; destruct Hin as [Hin | []];
      symmetry in Hin; revert Hin; apply Hty.
    + now rewrite op_type_parse_eq.
    + now rewrite op_type_parse_compression.
    + now rewrite op_type_parse_reverb.
    + now rewrite op_type_parse_volume.
    + now rewrite op_type_parse_width.
Qed.

Section WithHost.
Context {W : Type} (host : Host W).

Lemma process_ops_app (a b : list Operation) (st : Loop W) :
  process_ops host st (a ++ b)
  = process_ops host (process_ops host st a) b.
Proof. unfold process_ops. apply fold_left_app. Qed.

Lemma batch_calls_app (a b : list Operation) (st : Loop W) :
  batch_calls host st (a ++ b)
  = batch_calls host st a ++ batch_calls host (process_ops host st a) b.
Proof.
  revert st. induction a as [|op a IH]; intros st.
  - reflexivity.
  - cbn [app batch_calls]. rewrite IH. reflexivity.
Qed.

(** The engine call of an iteration on a Master operation. *)
Lemma master_success (st : Loop W) :
  run_engine host (l_world st) (l_current st) (op_output st OpMaster) OpMaster
  = ffmpeg_af host (l_world st) (l_current st)
      (join "," master_filters) (op_output st OpMaster).
Proof. reflexivity. Qed.

End WithHost.

(** C7. Whenever a Master operation is resolved, the iteration of
    [process_prompt] that carries it makes one ffmpeg run, on the current
    file of the loop, into the slot named after the next version with
    suffix [_master], and the filter string of that run is always the same
    five stages in the same order: high-pass at 30 Hz, compressor (-18 dB,
    3:1), the two-band EQ lift (100 Hz and 10 kHz), limiter at -1 dB,
    loudness normalisation to -14 LUFS.  The outcome and the world of the
    iteration are those of that run.  A prompt with a mastering keyword
    ends its batch with exactly this iteration, whatever else the text
    says and whatever operations run before it. *)
Theorem master_chain_applied {W : Type} (host : Host W) (st : Loop W)
        (w : W) (s : MixSession) (source t : string) :
  let chain :=
    ("highpass=f=30," ++
     "acompressor=threshold=-18dB:ratio=3:attack=10:release=100," ++
     "equalizer=f=100:t=q:w=1:g=1,equalizer=f=10000:t=q:w=1:g=1.5," ++
     "alimiter=limit=-1dB:level=false," ++
     "loudnorm=I=-14:TP=-1.5:LRA=11")%string in
  let run := fun st0 : Loop W =>
    ffmpeg_af host (l_world st0) (l_current st0) chain
      (op_output st0 OpMaster) in
  master_filters
  = ["highpass=f=30";
     "acompressor=threshold=-18dB:ratio=3:attack=10:release=100";
     "equalizer=f=100:t=q:w=1:g=1,equalizer=f=10000:t=q:w=1:g=1.5";
     "alimiter=limit=-1dB:level=false";
     "loudnorm=I=-14:TP=-1.5:LRA=11"] /\
  op_output st OpMaster
  = versioned_name (session_dir (l_session st))
      (S (version (l_session st))) "_master" /\
  op_success host st OpMaster = snd (run st) /\
  l_world (process_op host st OpMaster)
  = (if snd (run st)
     then save_session host (fst (run st))
            (l_session (process_op host st OpMaster))
     else fst (run st)) /\
  l_current (process_op host st OpMaster)
  = (if snd (run st) then op_output st OpMaster else l_current st) /\
  (any_in MASTER_KEYWORDS (lower t) = true ->
   current_file s = Some source ->
   source <> "" ->
   exists before,
     operations (parse t) = before ++ [OpMaster] /\
     ~ In OpMaster before /\
     let st0 := process_ops host (mkLoop w s source []) before in
     prompt_calls host w (Some s) t
     = batch_calls host (mkLoop w s source []) before ++
       [mkCall OpMaster (l_current st0) (op_output st0 OpMaster)
               (snd (run st0))] /\
     fst (process_prompt host w (Some s) t)
     = (save_session host (l_world (process_op host st0 OpMaster))
          (l_session (process_op host st0 OpMaster)),
        Some (l_session (process_op host st0 OpMaster)))).
Proof.
  intros chain run.
  assert (Hrun : forall st0,
             op_success host st0 OpMaster = snd (run st0) /\
             fst (run_engine host (l_world st0) (l_current st0)
                    (op_output st0 OpMaster) OpMaster) = fst (run st0)).
  { intros st0. unfold op_success. rewrite master_success. now split. }
  split; [reflexivity|].
  split; [unfold op_output; now rewrite reserve_spec|].
  destruct (Hrun st) as [Hok Hw].
  split; [exact Hok|]. split; [|split].
  - rewrite process_op_spec. cbv zeta. rewrite Hw, Hok.
    now destruct (snd (run st)).
  - rewrite process_op_current. now rewrite Hok.
  - intros Hkw Hcur Hne.
    destruct (family_ops_master_last (lower t) Hkw) as (before & Hops & Hno).
    exists before.
    assert (Hparse : operations (parse t) = before ++ [OpMaster])
      by exact Hops.
    split; [exact Hparse|]. split; [exact Hno|]. cbv zeta.
    assert (Hsome : operations (parse t) <> [] \/
                    requires_suno (parse t) = true).
    { left. rewrite Hparse. now destruct before. }
    pose proof (entry_checks_pass s source t Hcur Hne Hsome) as E.
    unfold prompt_calls, process_prompt. rewrite E. cbv zeta.
    rewrite Hparse, batch_calls_app, process_ops_app.
    split.
    + cbn [batch_calls]. now rewrite (proj1 (Hrun _)).
    + reflexivity.
Qed.

(** The theorem at work on a prompt that also asks for reverb and EQ, on
    the host that writes down every ffmpeg run: the latest run of the batch
    reads the output of the reverb and carries the chain. *)
Lemma master_chain_applied_witness :
  let t := "Add hall reverb, more bass, then MASTER it" in
  operations (parse t)
  = [OpEq 4 0 0; OpReverb 0.9 0.5 0.4] ++ [OpMaster] /\
  hd_error (fst (fst (process_prompt recording [] (Some fresh) t)))
  = Some ("sessions/demo/v002_reverb.wav",
          ("highpass=f=30," ++
           "acompressor=threshold=-18dB:ratio=3:attack=10:release=100," ++
           "equalizer=f=100:t=q:w=1:g=1,equalizer=f=10000:t=q:w=1:g=1.5," ++
           "alimiter=limit=-1dB:level=false," ++
           "loudnorm=I=-14:TP=-1.5:LRA=11")%string,
          "sessions/demo/v003_master.wav").
Proof.
  intros t.
  destruct (master_chain_applied recording
              (process_ops recording (mkLoop [] fresh "song.wav" [])
                 [OpEq 4 0 0; OpReverb 0.9 0.5 0.4])
              [] fresh "song.wav" t)
    as (_ & _ & _ & Hworld & _ & Hprompt).
  destruct Hprompt as (before & Hops & _ & _ & Hfst);
    [vm_compute; reflexivity | reflexivity | discriminate |].
  assert (Hb : before = [OpEq 4 0 0; OpReverb 0.9 0.5 0.4]).
  { assert (E : operations (parse t)
                = [OpEq 4 0 0; OpReverb 0.9 0.5 0.4] ++ [OpMaster])
      by (vm_compute; reflexivity).
    rewrite E in Hops. now apply app_inj_tail in Hops as [<- _]. }
  subst before. split; [exact Hops|].
  rewrite Hfst.
  change (hd_error
            (l_world
               (process_op recording
                  (process_ops recording (mkLoop [] fresh "song.wav" [])
                     [OpEq 4 0 0; OpReverb 0.9 0.5 0.4])
                  OpMaster))
          = Some ("sessions/demo/v002_reverb.wav",
                  ("highpass=f=30," ++
                   "acompressor=threshold=-18dB:ratio=3:attack=10:release=100,"
                   ++
                "equalizer=f=100:t=q:w=1:g=1,equalizer=f=10000:t=q:w=1:g=1.5,"
                   ++
                   "alimiter=limit=-1dB:level=false," ++
                   "loudnorm=I=-14:TP=-1.5:LRA=11")%string,
                  "sessions/demo/v003_master.wav")).
  rewrite Hworld. vm_compute. reflexivity.
Defined.

End MasterClaims.
